(** * HABApp home-assistant connection: embedding and verified properties

    A shallow embedding of
      - [HABApp/homeassistant/connection_handler/http_connection.py]
      - [HABApp/homeassistant/map_events.py]
      - [HABApp/homeassistant/connection_logic/connection.py]
      - [HABApp/homeassistant/connection_handler/func_sync.py] ([create_item])
    The module-level globals of the Python code become the fields of one
    [State] record that is threaded through a state-and-exception monad;
    everything the code does to the outside (log records, HTTP requests,
    task scheduling and cancellation, callbacks, event-bus posts) is
    appended, in program order, to the [trace] field.  A coroutine is run
    from its first statement to its last: what each of its [await]s yields
    (a response, an exception, the frames of the event stream) is an
    argument of the function that models it. *)

From stdpp Require Import base strings gmap list pretty.
From Stdlib Require Import ZArith Ascii.

Local Open Scope Z_scope.

(** ** Python values *)

(** Decoded JSON documents.  An object keeps its members in an association
    list; [json_lookup] returns the first binding of a key. *)
#[warnings="-register-all"]
Inductive json : Type :=
| JNull
| JBool (b : bool)
| JNum (z : Z)
| JStr (s : string)
| JList (l : list json)
| JObj (members : list (string * json)).

Fixpoint json_lookup (key : string) (members : list (string * json)) : option json :=
  match members with
  | [] => None
  | (k, v) :: rest => if String.eqb k key then Some v else json_lookup key rest
  end.

(** ** Exceptions *)

(** What a [ValueError] raised by the modelled code is about. *)
Inductive value_error : Type :=
| UnknownEvent (event_type : string) (in_dict : json)
    (* ValueError(f'Unknown Event: {event_type:s} for {_in_dict}') *)
| JSONDecodeError (doc : string)
    (* the decoder rejected a malformed text *)
| FormatError.
    (* format code 's' applied to a non-string *)

Inductive exn : Type :=
(* HABApp.homeassistant.errors *)
| HomeassistantConnectionNotSetUpError
| HomeassistantNotReadyYet
| HomeassistantDisconnectedError
| ExpectedSuccessFromHomeassistant
(* HABApp.core.Items *)
| ItemNotFoundException (name : string)
(* builtins *)
| ValueError (what : value_error)
| TypeError
| KeyError (key : string)
| AttributeError
| AssertionError
(* asyncio; a BaseException, not an Exception *)
| CancelledError
(* aiohttp *)
| ClientPayloadError
| ClientConnectorError
| ClientOSError
(* builtins, raised by aiohttp_sse_client *)
| ConnectionRefusedError
| ConnectionError
| ConnectionAbortedError
(* any other subclass of Exception *)
| OtherException (cls : string).

(** [isinstance(e, Exception)] *)
Definition is_Exception (e : exn) : bool :=
  match e with
  | CancelledError => false
  | _ => true
  end.

(** The [isinstance] test at the head of [is_disconnect_exception]. *)
Definition is_disconnect_class (e : exn) : bool :=
  match e with
  | ClientPayloadError | ClientConnectorError | ClientOSError
  | ConnectionRefusedError | ConnectionError | ConnectionAbortedError => true
  | _ => false
  end.

(** [isinstance(e, (HomeassistantDisconnectedError, HomeassistantNotReadyYet,
    ExpectedSuccessFromHomeassistant))] in [try_uuid]. *)
Definition is_offline_class (e : exn) : bool :=
  match e with
  | HomeassistantDisconnectedError | HomeassistantNotReadyYet
  | ExpectedSuccessFromHomeassistant => true
  | _ => false
  end.

(** [str(e)]: only used inside log messages. *)
Definition exn_str (e : exn) : string :=
  match e with
  | HomeassistantConnectionNotSetUpError => "HomeassistantConnectionNotSetUpError"
  | HomeassistantNotReadyYet => "HomeassistantNotReadyYet"
  | HomeassistantDisconnectedError => "HomeassistantDisconnectedError"
  | ExpectedSuccessFromHomeassistant => "ExpectedSuccessFromHomeassistant"
  | ItemNotFoundException n => "ItemNotFoundException " +:+ n
  | ValueError (UnknownEvent t _) => "Unknown Event: " +:+ t
  | ValueError (JSONDecodeError _) => "JSONDecodeError"
  | ValueError FormatError => "Unknown format code"
  | TypeError => "TypeError"
  | KeyError k => "KeyError " +:+ k
  | AttributeError => "AttributeError"
  | AssertionError => "AssertionError"
  | CancelledError => "CancelledError"
  | ClientPayloadError => "ClientPayloadError"
  | ClientConnectorError => "ClientConnectorError"
  | ClientOSError => "ClientOSError"
  | ConnectionRefusedError => "ConnectionRefusedError"
  | ConnectionError => "ConnectionError"
  | ConnectionAbortedError => "ConnectionAbortedError"
  | OtherException c => c
  end.

(** ** Strings *)

Definition dquote : ascii := "034"%char.

(** [s.startswith(p)] *)
Definition startswith (p s : string) : bool := String.prefix p s.

(** [sub in s] *)
Fixpoint contains (sub s : string) : bool :=
  String.prefix sub s ||
  match s with
  | EmptyString => false
  | String _ rest => contains sub rest
  end.

(** [s.replace(old, new)] for a non-empty [old]: leftmost occurrences, not
    overlapping.  [skip] counts the characters of a match still to drop. *)
Fixpoint replace_from (old new : string) (skip : nat) (s : string) : string :=
  match s with
  | EmptyString => EmptyString
  | String c rest =>
      match skip with
      | S k => replace_from old new k rest
      | O =>
          if String.prefix old s
          then new +:+ replace_from old new (Nat.pred (String.length old)) rest
          else String c (replace_from old new O rest)
      end
  end.

(** [s.replace('', new)] puts [new] before every character and at the end. *)
Fixpoint intersperse (new s : string) : string :=
  match s with
  | EmptyString => new
  | String c rest => new +:+ String c (intersperse new rest)
  end.

Definition replace (old new s : string) : string :=
  match old with
  | EmptyString => intersperse new s
  | _ => replace_from old new O s
  end.

(** ** Observable effects *)

Inductive level : Type := DEBUG | INFO | WARNING | ERROR.

Inductive method : Type := METH_GET | METH_POST | METH_PUT | METH_DELETE.

Definition method_str (m : method) : string :=
  match m with
  | METH_GET => "GET" | METH_POST => "POST"
  | METH_PUT => "PUT" | METH_DELETE => "DELETE"
  end.

(** The coroutines the module hands to the event loop. *)
Inductive coroutine : Type := Co_try_uuid | Co_start_sse_event_listener.

(** A decoded event: every event has a [name]; a [ValueUpdateEvent] also has
    a [value]. *)
Inductive event_kind : Type :=
| ValueUpdateEvent (value : json)
| OtherEvent (payload : json).

Record HomeassistantEvent : Type := mkEvent {
  event_class : string;
  name : string;
  kind : event_kind
}.

Inductive effect : Type :=
| ELog (lvl : level) (msg : string)            (* log.log(lvl, msg) *)
| ELogStatus (status : Z) (m : method) (url : string) (sent : option json)
                                                (* log.warning(f'Status {status} for ...') *)
| ELogVersion (version : json)                  (* log.info(f'Homeassistant version ...') *)
| ELogException (e : exn)                       (* report of a caught exception *)
| ELogEvent (event : json)                      (* log_events._log(DEBUG, event, []) *)
| ERequest (m : method) (url : string) (headers : option string)
           (data : option json) (json_arg : option json)
                                                (* HTTP_SESSION._request(...) awaited *)
| ECancel (fut : nat)                           (* fut.cancel() *)
| ESchedule (c : coroutine) (fut : nat)         (* create_task / run_coroutine_threadsafe *)
| ENewSession (s : nat) (auth : option string)  (* aiohttp.ClientSession(..., auth=auth) *)
| ECloseSession (s : nat)                       (* await HTTP_SESSION.close() *)
| ESleep (interval : N)                         (* the suspension inside CONNECT_WAIT.wait() *)
| EOnConnected                                  (* ON_CONNECTED() *)
| EOnDisconnected                               (* ON_DISCONNECTED() *)
| ESetValue (item : string) (value : json)      (* item.set_value(value) *)
| EPostEvent (topic : string) (event : HomeassistantEvent).
                                                (* EventBus.post_event(topic, event) *)

(** ** Futures and tasks *)

Inductive fut_state : Type := Pending | Cancelled | Finished.

(** ** The backoff timer *)

(** Modelled from the spec: the class [WaitBetweenConnects] of
    [http_connection_waiter.py], which is not part of the sources.  The
    spec gives it one piece of state, the last wait duration, a configured
    floor and ceiling, a [wait] that suspends the caller for the current
    interval and then advances the state by doubling up to the ceiling, and
    a reset to the floor. *)
Record WaitBetweenConnects : Type := mkWait {
  wait_floor : N;
  wait_ceiling : N;
  lastWaitDuration : N
}.

(** Modelled from the spec: the state after one [wait], "doubled (capped at
    a configured maximum)". *)
Definition wait_advance (w : WaitBetweenConnects) : WaitBetweenConnects :=
  mkWait (wait_floor w) (wait_ceiling w)
         (N.min (2 * lastWaitDuration w) (wait_ceiling w)).

(** Modelled from the spec: "reset to a configured minimum". *)
Definition wait_reset (w : WaitBetweenConnects) : WaitBetweenConnects :=
  mkWait (wait_floor w) (wait_ceiling w) (wait_floor w).

(** ** Program state *)

Record State : Type := mkState {
  (* globals of http_connection.py *)
  IS_ONLINE : bool;
  IS_READ_ONLY : bool;
  HTTP_PREFIX : option string;
  HTTP_SESSION : option nat;
  CONNECT_WAIT : WaitBetweenConnects;
  FUT_UUID : option nat;
  FUT_SSE : option nat;
  (* the event loop: state of every future handed out, next fresh handle *)
  futures : gmap nat fut_state;
  next_handle : nat;
  (* HABApp.core.Items: item name to cached value *)
  Items : gmap string json;
  (* log_events.isEnabledFor(logging.DEBUG) *)
  log_events_debug : bool;
  (* everything done to the outside world, oldest first *)
  trace : list effect
}.

Definition set_IS_ONLINE (b : bool) (st : State) : State :=
  mkState b (IS_READ_ONLY st) (HTTP_PREFIX st) (HTTP_SESSION st) (CONNECT_WAIT st)
          (FUT_UUID st) (FUT_SSE st) (futures st) (next_handle st) (Items st)
          (log_events_debug st) (trace st).

Definition set_HTTP_PREFIX (p : option string) (st : State) : State :=
  mkState (IS_ONLINE st) (IS_READ_ONLY st) p (HTTP_SESSION st) (CONNECT_WAIT st)
          (FUT_UUID st) (FUT_SSE st) (futures st) (next_handle st) (Items st)
          (log_events_debug st) (trace st).

Definition set_HTTP_SESSION (s : option nat) (st : State) : State :=
  mkState (IS_ONLINE st) (IS_READ_ONLY st) (HTTP_PREFIX st) s (CONNECT_WAIT st)
          (FUT_UUID st) (FUT_SSE st) (futures st) (next_handle st) (Items st)
          (log_events_debug st) (trace st).

Definition set_CONNECT_WAIT (w : WaitBetweenConnects) (st : State) : State :=
  mkState (IS_ONLINE st) (IS_READ_ONLY st) (HTTP_PREFIX st) (HTTP_SESSION st) w
          (FUT_UUID st) (FUT_SSE st) (futures st) (next_handle st) (Items st)
          (log_events_debug st) (trace st).

Definition set_FUT_UUID (f : option nat) (st : State) : State :=
  mkState (IS_ONLINE st) (IS_READ_ONLY st) (HTTP_PREFIX st) (HTTP_SESSION st) (CONNECT_WAIT st)
          f (FUT_SSE st) (futures st) (next_handle st) (Items st)
          (log_events_debug st) (trace st).

Definition set_FUT_SSE (f : option nat) (st : State) : State :=
  mkState (IS_ONLINE st) (IS_READ_ONLY st) (HTTP_PREFIX st) (HTTP_SESSION st) (CONNECT_WAIT st)
          (FUT_UUID st) f (futures st) (next_handle st) (Items st)
          (log_events_debug st) (trace st).

Definition set_futures (m : gmap nat fut_state) (st : State) : State :=
  mkState (IS_ONLINE st) (IS_READ_ONLY st) (HTTP_PREFIX st) (HTTP_SESSION st) (CONNECT_WAIT st)
          (FUT_UUID st) (FUT_SSE st) m (next_handle st) (Items st)
          (log_events_debug st) (trace st).

Definition set_next_handle (n : nat) (st : State) : State :=
  mkState (IS_ONLINE st) (IS_READ_ONLY st) (HTTP_PREFIX st) (HTTP_SESSION st) (CONNECT_WAIT st)
          (FUT_UUID st) (FUT_SSE st) (futures st) n (Items st)
          (log_events_debug st) (trace st).

Definition set_Items (m : gmap string json) (st : State) : State :=
  mkState (IS_ONLINE st) (IS_READ_ONLY st) (HTTP_PREFIX st) (HTTP_SESSION st) (CONNECT_WAIT st)
          (FUT_UUID st) (FUT_SSE st) (futures st) (next_handle st) m
          (log_events_debug st) (trace st).

Definition set_trace (t : list effect) (st : State) : State :=
  mkState (IS_ONLINE st) (IS_READ_ONLY st) (HTTP_PREFIX st) (HTTP_SESSION st) (CONNECT_WAIT st)
          (FUT_UUID st) (FUT_SSE st) (futures st) (next_handle st) (Items st)
          (log_events_debug st) t.

(** ** The state-and-exception monad *)

(** A computation runs from a state to an outcome, a raised exception or a
    returned value, and a final state.  As in Python, what was done to the
    state before an exception is raised stays done. *)
Definition M (A : Type) : Type := State → (exn + A) * State.

Definition ret {A} (a : A) : M A := λ st, (inr a, st).

Definition raise {A} (e : exn) : M A := λ st, (inl e, st).

Definition bind {A B} (m : M A) (k : A → M B) : M B :=
  λ st, match m st with
        | (inl e, st') => (inl e, st')
        | (inr a, st') => k a st'
        end.

Notation "'let*' x ':=' m 'in' k" := (bind m (λ x, k))
  (at level 10, x name, m at level 100, k at level 200).
Notation "m '>>' k" := (bind m (λ _, k))
  (at level 100, k at level 200, right associativity).

(** [try: m  except <filter> as e: h e] *)
Definition try_except {A} (m : M A) (filter : exn → bool) (h : exn → M A) : M A :=
  λ st, match m st with
        | (inl e, st') => if filter e then h e st' else (inl e, st')
        | (inr a, st') => (inr a, st')
        end.

Definition gets {A} (f : State → A) : M A := λ st, (inr (f st), st).

Definition modify (f : State → State) : M unit := λ st, (inr tt, f st).

Definition emit (e : effect) : M unit :=
  modify (λ st, set_trace (trace st ++ [e]) st).

Definition log (lvl : level) (msg : string) : M unit := emit (ELog lvl msg).

Definition when (b : bool) (m : M unit) : M unit := if b then m else ret tt.

(** Lifting of a pure outcome. *)
Definition lift {A} (r : exn + A) : M A :=
  match r with
  | inl e => raise e
  | inr a => ret a
  end.

Definition is_pending (futs : gmap nat fut_state) (f : nat) : bool :=
  match futs !! f with
  | Some Pending => true
  | _ => false
  end.

(** [fut.done()]: true once the future is finished or cancelled. *)
Definition fut_done (f : nat) : M bool :=
  gets (λ st, negb (is_pending (futures st) f)).

(** [fut.cancel()]: a pending future becomes cancelled, any other is left
    as it is. *)
Definition fut_cancel (f : nat) : M unit :=
  emit (ECancel f) >>
  modify (λ st, if is_pending (futures st) f
                then set_futures (<[f := Cancelled]> (futures st)) st
                else st).

(** [asyncio.create_task(c)] and [asyncio.run_coroutine_threadsafe(c, loop)]:
    a fresh pending future for the coroutine. *)
Definition schedule (c : coroutine) : M nat :=
  let* f := gets next_handle in
  modify (λ st, set_next_handle (S f) (set_futures (<[f := Pending]> (futures st)) st)) >>
  emit (ESchedule c f) >>
  ret f.

(** ** HABApp.core.const.json *)

(** The two ways in which a JSON decoder rejects its input: a text that is
    not well-formed JSON ([ValueError]) and an input that is not a text
    ([TypeError]). *)
Inductive decode_failure : Type := Malformed | NotText.

(** [load_json(doc)], given the decoder.  The decoder itself is an imported
    library function and stays a parameter of the development. *)
Definition py_load_json (load_json : string → decode_failure + json) (doc : string)
    : exn + json :=
  match load_json doc with
  | inl Malformed => inl (ValueError (JSONDecodeError doc))
  | inl NotText => inl TypeError
  | inr j => inr j
  end.

(** [isinstance(e, ValueError)] and [isinstance(e, TypeError)] *)
Definition is_ValueError (e : exn) : bool :=
  match e with ValueError _ => true | _ => false end.

Definition is_TypeError (e : exn) : bool :=
  match e with TypeError => true | _ => false end.

(** [d.get(key)]: only a dict has the method. *)
Definition py_get (d : json) (key : string) : exn + json :=
  match d with
  | JObj members => inr (default JNull (json_lookup key members))
  | _ => inl AttributeError
  end.

(** [d[key]] for a string key: a dict answers or raises [KeyError]; [None],
    numbers, strings and lists raise [TypeError]. *)
Definition py_subscript (d : json) (key : string) : exn + json :=
  match d with
  | JObj members =>
      match json_lookup key members with
      | Some v => inr v
      | None => inl (KeyError key)
      end
  | _ => inl TypeError
  end.

(** ** http_connection.py *)

(** An [aiohttp.ClientResponse].  [text] and [json_body] are the outcomes of
    awaiting [resp.text(encoding='utf-8')] and
    [resp.json(loads=load_json, encoding='utf-8')]. *)
Record ClientResponse : Type := mkResponse {
  status : Z;
  request_method : method;
  request_url : string;
  text : exn + string;
  json_body : exn + json
}.

Module http_connection.

Definition set_offline (log_msg : string) : M unit :=
  let* online := gets IS_ONLINE in
  if negb online then ret tt else
  modify (set_IS_ONLINE false) >>
  log WARNING ("Disconnected! " +:+ log_msg) >>
  (* cancel SSE listener *)
  (let* sse := gets FUT_SSE in
   match sse with
   | Some f =>
       (let* d := fut_done f in when (negb d) (fut_cancel f)) >>
       modify (set_FUT_SSE None)
   | None => ret tt
   end) >>
  emit EOnDisconnected >>
  (* Try reconnect *)
  let* uuid := gets FUT_UUID in
  match uuid with
  | None => raise AttributeError          (* None has no attribute 'done' *)
  | Some f =>
      (let* d := fut_done f in when (negb d) (fut_cancel f)) >>
      let* t := schedule Co_try_uuid in
      modify (set_FUT_UUID (Some t))
  end.

Definition is_disconnect_exception (e : exn) : M bool :=
  if negb (is_disconnect_class e) then ret false else
  set_offline (exn_str e) >>
  ret true.

(** [future] is what awaiting the request yields: the exception it raises
    or the response. *)
Definition check_response (future : exn + ClientResponse) (sent_data : option json)
    (log_404 disconnect_on_error : bool) : M ClientResponse :=
  let* resp :=
    try_except (lift future) is_Exception
      (λ e,
         let* is_disconnect := is_disconnect_exception e in
         log (if is_disconnect then WARNING else ERROR) (exn_str e) >>
         if is_disconnect then raise HomeassistantDisconnectedError else raise e) in
  let status := status resp in
  (* Server Errors if homeassistant is not ready yet *)
  if 500 <=? status then
    set_offline ("Status " +:+ pretty status +:+ " for " +:+
                 method_str (request_method resp) +:+ " " +:+ request_url resp) >>
    raise HomeassistantNotReadyYet
  else
  (* Sometimes openHAB issues 404 instead of 500 during startup *)
  if disconnect_on_error && (400 <=? status) then
    let* prefix := gets HTTP_PREFIX in
    match prefix with
    | None => raise TypeError             (* replace() with None as its first argument *)
    | Some p =>
        set_offline ("Expected success but got status " +:+ pretty status +:+ " for " +:+
                     replace p EmptyString (request_url resp)) >>
        raise ExpectedSuccessFromHomeassistant
    end
  else
  (* Something went wrong - log error message *)
  let log_msg :=
    if 300 <=? status
    then (if (status =? 404) && negb log_404 then false else true)
    else false in
  when log_msg
    (emit (ELogStatus status (request_method resp) (request_url resp) sent_data) >>
     log DEBUG "<ClientResponse>") >>
  ret resp.

(** [f'{HTTP_PREFIX}/rest/{url}/'] *)
Definition rest_url (prefix url : string) : string :=
  prefix +:+ "/rest/" +:+ url +:+ "/".

(** The attribute access [HTTP_SESSION._request]. *)
Definition session_request : M nat :=
  let* s := gets HTTP_SESSION in
  match s with
  | None => raise AttributeError
  | Some s => ret s
  end.

Definition get (url : string) (log_404 disconnect_on_error : bool)
    (future : exn + ClientResponse) : M ClientResponse :=
  let* prefix := gets HTTP_PREFIX in
  match prefix with
  | None => raise HomeassistantConnectionNotSetUpError
  | Some p =>
      if startswith "/" url then raise AssertionError else
      let url := rest_url p url in
      session_request >>
      emit (ERequest METH_GET url None None None) >>
      check_response future None log_404 disconnect_on_error
  end.

Definition post (url : string) (log_404 : bool) (json data : option json)
    (future : exn + ClientResponse) : M (option ClientResponse) :=
  let* prefix := gets HTTP_PREFIX in
  match prefix with
  | None => raise HomeassistantConnectionNotSetUpError
  | Some p =>
      let* read_only := gets IS_READ_ONLY in
      let* online := gets IS_ONLINE in
      if read_only || negb online then ret None else
      if startswith "/" url then raise AssertionError else
      let url := rest_url p url in
      (* todo: remove this workaround once there is a fix in aiohttp *)
      let headers :=
        match data with
        | Some _ => Some "Content-Type: text/plain; charset=utf-8"
        | None => None
        end in
      session_request >>
      emit (ERequest METH_POST url headers data json) >>
      let data := match data with None => json | Some _ => data end in
      let* resp := check_response future data log_404 false in
      ret (Some resp)
  end.

Definition put (url : string) (log_404 : bool) (json data : option json)
    (future : exn + ClientResponse) : M (option ClientResponse) :=
  let* prefix := gets HTTP_PREFIX in
  match prefix with
  | None => raise HomeassistantConnectionNotSetUpError
  | Some p =>
      let* read_only := gets IS_READ_ONLY in
      let* online := gets IS_ONLINE in
      if read_only || negb online then ret None else
      if startswith "/" url then raise AssertionError else
      let url := rest_url p url in
      (* todo: remove this workaround once there is a fix in aiohttp *)
      let headers :=
        match data with
        | Some _ => Some "Content-Type: text/plain; charset=utf-8"
        | None => None
        end in
      session_request >>
      emit (ERequest METH_PUT url headers data json) >>
      let data := match data with None => json | Some _ => data end in
      let* resp := check_response future data log_404 false in
      ret (Some resp)
  end.

Definition delete (url : string) (log_404 : bool) (json data : option json)
    (future : exn + ClientResponse) : M (option ClientResponse) :=
  let* prefix := gets HTTP_PREFIX in
  match prefix with
  | None => raise HomeassistantConnectionNotSetUpError
  | Some p =>
      let* read_only := gets IS_READ_ONLY in
      let* online := gets IS_ONLINE in
      if read_only || negb online then ret None else
      if startswith "/" url then raise AssertionError else
      let url := rest_url p url in
      session_request >>
      emit (ERequest METH_DELETE url None data json) >>
      let data := match data with None => json | Some _ => data end in
      let* resp := check_response future data log_404 false in
      ret (Some resp)
  end.

Definition stop_connection : M unit :=
  (let* uuid := gets FUT_UUID in
   match uuid with
   | Some f =>
       let* d := fut_done f in
       when (negb d) (fut_cancel f >> modify (set_FUT_UUID None))
   | None => ret tt
   end) >>
  (let* sse := gets FUT_SSE in
   match sse with
   | Some f =>
       let* d := fut_done f in
       when (negb d) (fut_cancel f >> modify (set_FUT_SSE None))
   | None => ret tt
   end) >>
  (* await asyncio.sleep(0) *)
  (* If we are already connected properly disconnect *)
  let* session := gets HTTP_SESSION in
  match session with
  | Some s => emit (ECloseSession s) >> modify (set_HTTP_SESSION None)
  | None => ret tt
  end.

(** [HABApp.CONFIG.homeassistant.connection] as declared by class
    [Connection] in [config/_conf_homeassistant.py]. *)
Record Connection : Type := mkConnection {
  host : string;
  port : Z;
  user : string;
  password : string
}.

(** [aiohttp.ClientSession(..., auth=auth)] *)
Definition new_session (auth : option string) : M nat :=
  let* s := gets next_handle in
  modify (set_next_handle (S s)) >>
  emit (ENewSession s auth) >>
  ret s.

(** [ca_cert] and [cert_verify] are the outcomes of reading the attributes
    of these names from the connection configuration; class [Connection]
    declares neither, so what the read yields is left to the caller. *)
Definition start_connection (cfg : Connection) (ca_cert : exn + string)
    (cert_verify : exn + bool) : M unit :=
  log DEBUG "Start connection" >>
  stop_connection >>
  let host := host cfg in
  let port := port cfg in
  let* ca_cert := lift ca_cert in
  let* _ := lift cert_verify in
  log DEBUG "Loaded connection config" >>
  (* do not run without host *)
  if String.eqb host EmptyString then modify (set_HTTP_PREFIX None) else
  modify (set_HTTP_PREFIX
            (Some ((if negb (String.eqb ca_cert EmptyString) then "wss://" else "ws://")
                   +:+ host +:+ ":" +:+ pretty port))) >>
  let auth := if String.eqb (user cfg) EmptyString then None else Some (user cfg) in
  (* todo: add possibility to configure line size with read_bufsize *)
  log DEBUG "HTTP session created" >>
  (let* s := new_session auth in modify (set_HTTP_SESSION (Some s))) >>
  let* t := schedule Co_try_uuid in
  modify (set_FUT_UUID (Some t)).

Section listener.
(** The decoder behind [load_json] and the callable stored in
    [ON_SSE_EVENT]. *)
Context (load_json : string → decode_failure + json).
Context (ON_SSE_EVENT : json → M unit).

(** The body of [async for event in event_source]; [data] is
    [event.data].  A decoding that fails goes on to the next frame. *)
Definition sse_frame (data : string) : M unit :=
  let* decoded :=
    try_except (let* event := lift (py_load_json load_json data) in ret (Some event))
      (λ e, is_ValueError e || is_TypeError e)
      (λ _, ret None) in
  match decoded with
  | None => ret tt                                    (* continue *)
  | Some event =>
      (* Log sse event *)
      (let* dbg := gets log_events_debug in when dbg (emit (ELogEvent event))) >>
      (* process *)
      ON_SSE_EVENT event
  end.

Fixpoint sse_loop (frames : list string) : M unit :=
  match frames with
  | [] => ret tt
  | data :: rest => sse_frame data >> sse_loop rest
  end.

(** [f'{HTTP_PREFIX}/events?topics=...'] *)
Definition events_url (prefix : option string) : string :=
  default "None" prefix +:+
  "/events?topics=homeassistant/items/,homeassistant/channels/," +:+
  "homeassistant/things/*/status,homeassistant/things/*/statuschanged".

(** The event source delivers [frames] and then ends: [ending] is the
    exception the iteration raises ([CancelledError] when the task is
    cancelled), or [None] when the server closes the stream. *)
Definition start_sse_event_listener (frames : list string) (ending : option exn)
    : M unit :=
  try_except
    (try_except
       (let* prefix := gets HTTP_PREFIX in
        emit (ERequest METH_GET (events_url prefix) None None None) >>
        sse_loop frames >>
        match ending with
        | Some e => raise e
        | None => ret tt
        end)
       (* This exception gets raised if we cancel the coroutine *)
       (λ e, negb (is_Exception e))
       (λ _, ret tt))
    is_Exception
    (λ e,
       let* disconnect := is_disconnect_exception e in
       let lvl := if disconnect then WARNING else ERROR in
       log lvl ("SSE request Error: " +:+ exn_str e) >>
       emit (ELogException e) >>
       (* reconnect even if we have an unexpected error *)
       when (negb disconnect)
         (set_offline ("Uncaught error in process_sse_events: " +:+ exn_str e))).
End listener.

Definition async_get_uuid (future : exn + ClientResponse) : M string :=
  let* resp := get "uuid" false false future in
  if 300 <=? status resp then raise HomeassistantNotReadyYet else
  lift (text resp).

Definition async_get_root (future : exn + ClientResponse) : M json :=
  let* resp := get EmptyString false false future in
  if status resp =? 404 then ret (JObj []) else
  lift (json_body resp).

(** Modelled from the spec: [CONNECT_WAIT.wait()], which "suspends caller
    for the current interval, then advances internal state". *)
Definition CONNECT_WAIT_wait : M unit :=
  let* w := gets CONNECT_WAIT in
  emit (ESleep (lastWaitDuration w)) >>
  modify (set_CONNECT_WAIT (wait_advance w)).

(** [uuid_future] and [root_future] are what the two requests of the probe
    yield when awaited. *)
Definition try_uuid (uuid_future root_future : exn + ClientResponse) : M unit :=
  (* sleep before reconnect *)
  CONNECT_WAIT_wait >>
  log DEBUG "Trying to connect to Homeassistant ..." >>
  let* probe :=
    try_except
      (let* uuid := async_get_uuid uuid_future in
       let* root := async_get_root root_future in      (* this will only work on OH3 *)
       ret (Some (uuid, root)))
      is_Exception
      (λ e,
         (if is_offline_class e then log INFO "... offline!" else emit (ELogException e)) >>
         (* Keep trying to connect *)
         let* t := schedule Co_try_uuid in
         modify (set_FUT_UUID (Some t)) >>
         ret None) in
  match probe with
  | None => ret tt
  | Some (uuid, root) =>
      (let* read_only := gets IS_READ_ONLY in
       if read_only
       then log INFO ("Connected read only to Homeassistant instance " +:+ uuid)
       else log INFO ("Connected to Homeassistant instance " +:+ uuid)) >>
      let* info := lift (py_get root "ha_version") in
      let* version := lift (py_subscript info "ha_version") in
      emit (ELogVersion version) >>
      modify (set_IS_ONLINE true) >>
      (* start sse processing *)
      (let* sse := gets FUT_SSE in
       match sse with
       | Some f => fut_cancel f
       | None => ret tt
       end) >>
      (let* t := schedule Co_start_sse_event_listener in
       modify (set_FUT_SSE (Some t))) >>
      emit EOnConnected
  end.

End http_connection.

(** ** map_events.py *)

Module map_events.

(** An event class: its [__name__] and its constructor [from_dict]. *)
Record EventClass : Type := mkEventClass {
  cls_name : string;
  from_dict : json → json → exn + HomeassistantEvent
}.

Definition EVENT_LIST : list EventClass := [].

(** [{k.__name__: k for k in event_list}]: a later class replaces an
    earlier one of the same name. *)
Definition event_lookup_of (event_list : list EventClass) : gmap string EventClass :=
  foldl (λ m k, <[cls_name k := k]> m) ∅ event_list.

Definition __event_lookup : gmap string EventClass := event_lookup_of EVENT_LIST.

(** The text the workaround looks for: NONE between double quotes. *)
Definition NONE_token : string := String dquote ("NONE" +:+ String dquote EmptyString).

Definition is_NONE_token (j : json) : bool :=
  match j with
  | JStr s => String.eqb s NONE_token
  | _ => false
  end.

Section decoder.
Context (load_json : string → decode_failure + json).
Context (event_lookup : gmap string EventClass).

(** The workaround and [load_json(p_str)].  A payload that is not a
    string fails in the membership test, in [replace] or in the
    decoder, depending on its type. *)
Definition load_payload (p_str : json) : exn + json :=
  match p_str with
  | JStr s =>
      let s := if contains NONE_token s then replace NONE_token "null" s else s in
      py_load_json load_json s
  | JList l =>
      if existsb is_NONE_token l then inl AttributeError else inl TypeError
  | JObj members =>
      if bool_decide (is_Some (json_lookup NONE_token members))
      then inl AttributeError else inl TypeError
  | JNull | JBool _ | JNum _ => inl TypeError
  end.

(** [__event_lookup[event_type].from_dict(topic, payload)] inside
    [try ... except KeyError]. *)
Definition construct (_in_dict event_type topic payload : json)
    : exn + HomeassistantEvent :=
  match event_type with
  | JStr t =>
      match event_lookup !! t with
      | Some cls =>
          match from_dict cls topic payload with
          | inl (KeyError _) => inl (ValueError (UnknownEvent t _in_dict))
          | r => r
          end
      | None => inl (ValueError (UnknownEvent t _in_dict))
      end
  (* hashable, never a key; formatting with 's' fails in the handler *)
  | JBool _ | JNum _ => inl (ValueError FormatError)
  | JNull => inl TypeError
  (* unhashable *)
  | JList _ | JObj _ => inl TypeError
  end.

Definition get_event (_in_dict : json) : exn + HomeassistantEvent :=
  match py_subscript _in_dict "type" with
  | inl e => inl e
  | inr event_type =>
  match py_subscript _in_dict "topic" with
  | inl e => inl e
  | inr topic =>
  match py_subscript _in_dict "payload" with
  | inl e => inl e
  | inr p_str =>
  (* Workaround for None values in the payload str *)
  match load_payload p_str with
  | inl e => inl e
  | inr payload =>
  (* Find event from implemented events *)
  construct _in_dict event_type topic payload
  end end end end.
End decoder.

End map_events.

(** ** connection.py *)

Module connection.

(** Modelled from the spec: the decorator [ignore_exception] of
    [HABApp.core.wrapper], which is not part of the sources: "any
    exception raised while handling one event is caught and logged". *)
Definition ignore_exception (f : M unit) : M unit :=
  try_except f is_Exception (λ e, emit (ELogException e)).

(** Modelled from the spec: [HABApp.core.Items.get_item], the lookup of an
    item by name in the registry, failing with [ItemNotFoundException]. *)
Definition Items_get_item (item : string) : M string :=
  let* items := gets Items in
  match items !! item with
  | Some _ => ret item
  | None => raise (ItemNotFoundException item)
  end.

(** Modelled from the spec: [BaseValueItem.set_value], the update of the
    cached value of a registered item. *)
Definition set_value (item : string) (value : json) : M unit :=
  emit (ESetValue item value) >>
  modify (λ st, set_Items (<[item := value]> (Items st)) st).

(** Modelled from the spec: [HABApp.core.EventBus.post_event], the
    publication of an event under a topic. *)
Definition post_event (topic : string) (event : HomeassistantEvent) : M unit :=
  emit (EPostEvent topic event).

Definition is_ItemNotFoundException (e : exn) : bool :=
  match e with ItemNotFoundException _ => true | _ => false end.

Section bridge.
Context (load_json : string → decode_failure + json).
Context (event_lookup : gmap string map_events.EventClass).

(** [on_sse_event] before decoration.  The [try] block answers whether
    it returned. *)
Definition on_sse_event__wrapped (event_dict : json) : M unit :=
  (* Lookup corresponding OpenHAB event *)
  let* event := lift (map_events.get_event load_json event_lookup event_dict) in
  (* Update item in registry BEFORE posting to the event bus *)
  let* returned :=
    try_except
      (match kind event with
       | ValueUpdateEvent value =>
           let* __item := Items_get_item (name event) in
           set_value __item value >>
           post_event (name event) event >>
           ret true
       | OtherEvent _ => ret false
       end)
      is_ItemNotFoundException
      (λ _, ret false) in
  if returned : bool then ret tt else
  (* Send Event to Event Bus *)
  post_event (name event) event.

Definition on_sse_event (event_dict : json) : M unit :=
  ignore_exception (on_sse_event__wrapped event_dict).

(** The listener as [setup] wires it:
    [http_connection.ON_SSE_EVENT = on_sse_event]. *)
Definition sse_event_listener (frames : list string) (ending : option exn) : M unit :=
  http_connection.start_sse_event_listener load_json on_sse_event frames ending.
End bridge.

End connection.

(** ** func_sync.py *)

(** [s.split(sep)] for a non-empty [sep]: the pieces between the leftmost,
    not overlapping occurrences of [sep].  [skip] counts the characters of
    a separator still to drop. *)
Fixpoint split_from (sep : string) (skip : nat) (s : string) : list string :=
  match s with
  | EmptyString => [EmptyString]
  | String c rest =>
      match skip with
      | S k => split_from sep k rest
      | O =>
          if String.prefix sep s
          then EmptyString :: split_from sep (Nat.pred (String.length sep)) rest
          else match split_from sep O rest with
               | piece :: pieces => String c piece :: pieces
               | [] => [String c EmptyString]
               end
      end
  end.

Definition split (sep s : string) : list string := split_from sep O s.

(** [isinstance(v, str)] *)
Definition is_str (v : json) : bool :=
  match v with JStr _ => true | _ => false end.

(** Whether [iter(v)] returns: strings, lists and dicts are iterable;
    [None], booleans and numbers are not. *)
Definition is_iterable (v : json) : bool :=
  match v with
  | JStr _ | JList _ | JObj _ => true
  | JNull | JBool _ | JNum _ => false
  end.

(** [bool(v)] *)
Definition truthy (v : json) : bool :=
  match v with
  | JNull => false
  | JBool b => b
  | JNum z => negb (z =? 0)
  | JStr s => negb (String.eqb s EmptyString)
  | JList l => negb (bool_decide (l = []))
  | JObj members => negb (bool_decide (members = []))
  end.

Module func_sync.

(** What [create_item] raises, with the statement that raises it. *)
Inductive create_item_exn : Type :=
| UnpackError (pieces : nat)
    (* ValueError: [__type, __unit = item_type.split(':')] with other than two pieces *)
| InvalidUnit (unit : string)
    (* AssertionError: [assert __unit in definitions.ITEM_DIMENSIONS] *)
| InvalidType (type : string)
    (* AssertionError: [assert __type in definitions.ITEM_TYPES] and
       [assert item_type in definitions.ITEM_TYPES] *)
| NotAStr (value : json)
    (* AssertionError: [assert isinstance(..., str)] *)
| NotIterable (value : json)
    (* TypeError: [map(validate, ...)] on a value that is not iterable *)
| NotAGroup (item_type : string)
    (* AssertionError: [assert item_type == 'Group'] *)
| InvalidGroupFunction (group_function : json)
    (* AssertionError: [assert group_function in definitions.GROUP_FUNCTIONS] *)
| FutureRaised (e : exn).
    (* whatever [fut.result()] raises *)

(** The coroutine handed to [asyncio.run_coroutine_threadsafe], with its
    arguments. *)
Inductive api_call : Type :=
| Async_create_item (item_type : string)
    (name label category tags groups group_type group_function
     group_function_params : json).

Definition checked : Type := create_item_exn + unit.

(** [assert b], raising [e] *)
Definition py_assert (b : bool) (e : create_item_exn) : checked :=
  if b then inr tt else inl e.

(** Statements in sequence: the first one that raises ends the sequence. *)
Fixpoint first_failure (statements : list checked) : checked :=
  match statements with
  | [] => inr tt
  | inl e :: _ => inl e
  | inr _ :: rest => first_failure rest
  end.

(** [map(validate, v)]: the iterator is made and never consumed, so
    [validate] is not called. *)
Definition map_validate (v : json) : checked :=
  py_assert (is_iterable v) (NotIterable v).

Section tables.
(** The tables of [definitions], which are not part of these sources: each
    a collection of strings. *)
Context (ITEM_TYPES ITEM_DIMENSIONS GROUP_FUNCTIONS : list string).

(** The statements of [create_item] before the call.  [item_type] is a
    [str], as annotated; the other arguments are any values, the function
    checks their types itself. *)
Definition create_item_validation (item_type : string)
    (name label category tags groups group_type group_function
     group_function_params : json) : checked :=
  first_failure [
    (* limit values to special entries and validate parameters *)
    (if contains ":" item_type then
       match split ":" item_type with
       | [__type; __unit] =>
           first_failure [
             py_assert (bool_decide (__unit ∈ ITEM_DIMENSIONS)) (InvalidUnit __unit);
             py_assert (bool_decide (__type ∈ ITEM_TYPES)) (InvalidType __type) ]
       | pieces => inl (UnpackError (length pieces))
       end
     else py_assert (bool_decide (item_type ∈ ITEM_TYPES)) (InvalidType item_type));
    py_assert (is_str name) (NotAStr name);
    py_assert (is_str label) (NotAStr label);
    py_assert (is_str category) (NotAStr category);
    map_validate tags;
    map_validate groups;
    py_assert (is_str group_type) (NotAStr group_type);
    py_assert (is_str group_function) (NotAStr group_function);
    map_validate group_function_params;
    (if truthy group_type || truthy group_function || truthy group_function_params then
       first_failure [
         py_assert (String.eqb item_type "Group") (NotAGroup item_type);
         (if truthy group_function then
            py_assert
              (match group_function with
               | JStr f => bool_decide (f ∈ GROUP_FUNCTIONS)
               | _ => false
               end)
              (InvalidGroupFunction group_function)
          else inr tt) ]
     else inr tt) ].

(** [create_item] under its decorator [log_exception], which is not part
    of these sources.  [result] is what [fut.result()] yields.  The
    function answers what it returns or raises, and the coroutines it has
    handed to the event loop. *)
Definition create_item__wrapped (item_type : string)
    (name label category tags groups group_type group_function
     group_function_params : json) (result : exn + json)
    : (create_item_exn + json) * list api_call :=
  match create_item_validation item_type name label category tags groups
          group_type group_function group_function_params with
  | inl e => (inl e, [])
  | inr _ =>
      (match result with
       | inl e => inl (FutureRaised e)
       | inr v => inr v
       end,
       [Async_create_item item_type name label category tags groups
          group_type group_function group_function_params])
  end.
End tables.

End func_sync.

(** * Specification vocabulary *)

(** [hoare P m Q E]: from a state in [P], [m] either returns [a] in a state
    in [Q a] or raises [e] in a state in [E e]. *)
Definition hoare {A} (P : State → Prop) (m : M A)
    (Q : A → State → Prop) (E : exn → State → Prop) : Prop :=
  ∀ st, P st →
    match m st with
    | (inr a, st') => Q a st'
    | (inl e, st') => E e st'
    end.

(** [stable P m]: [m] keeps [P], however it ends. *)
Definition stable {A} (P : State → Prop) (m : M A) : Prop :=
  hoare P m (λ _, P) (λ _, P).

(** The [ECancel] records a [cancel()] guarded by [not fut.done()] leaves. *)
Definition cancel_pending (futs : gmap nat fut_state) (fut : option nat) : list effect :=
  match fut with
  | Some f => if is_pending futs f then [ECancel f] else []
  | None => []
  end.

(** The trace of [st] starts with [t]. *)
Definition extends (t : list effect) (st : State) : Prop :=
  ∃ rest, trace st = t ++ rest.

(** While online the handshake handle is set: [try_uuid], the one place
    that sets the flag, runs as the task stored in [FUT_UUID]. *)
Definition handshake_tracked (st : State) : Prop :=
  IS_ONLINE st = true → is_Some (FUT_UUID st).

(** The condition under which [check_response] logs the status. *)
Definition logs_status (status : Z) (log_404 : bool) : bool :=
  (300 <=? status) && negb ((status =? 404) && negb log_404).

Definition status_message (resp : ClientResponse) : string :=
  "Status " +:+ pretty (status resp) +:+ " for " +:+
  method_str (request_method resp) +:+ " " +:+ request_url resp.

Definition expected_success_message (prefix : string) (resp : ClientResponse) : string :=
  "Expected success but got status " +:+ pretty (status resp) +:+ " for " +:+
  replace prefix EmptyString (request_url resp).

(** While the flag is online the session is set. *)
Definition session_when_online (st : State) : Prop :=
  IS_ONLINE st = true → is_Some (HTTP_SESSION st).

(** The stream handle is set only while the flag is online. *)
Definition stream_only_online (st : State) : Prop :=
  is_Some (FUT_SSE st) → IS_ONLINE st = true.

Definition connection_invariant (st : State) : Prop :=
  session_when_online st ∧ stream_only_online st.

(** The invariant, in a state whose session is set. *)
Definition invariant_with_session (st : State) : Prop :=
  connection_invariant st ∧ is_Some (HTTP_SESSION st).

(** Online with a session: what the end of a successful handshake keeps. *)
Definition online_with_session (st : State) : Prop :=
  IS_ONLINE st = true ∧ is_Some (HTTP_SESSION st).

(** ** Counting what a run does *)

Definition is_ERequest (e : effect) : bool :=
  match e with ERequest _ _ _ _ _ => true | _ => false end.

Definition is_EOnDisconnected (e : effect) : bool :=
  match e with EOnDisconnected => true | _ => false end.

Definition is_EOnConnected (e : effect) : bool :=
  match e with EOnConnected => true | _ => false end.

Definition is_ESchedule (e : effect) : bool :=
  match e with ESchedule _ _ => true | _ => false end.

(** An effect that is only a log record. *)
Definition is_log (e : effect) : bool :=
  match e with
  | ELog _ _ | ELogStatus _ _ _ _ | ELogVersion _ | ELogException _ | ELogEvent _ => true
  | _ => false
  end.

(** How many effects of a trace satisfy [p]. *)
Fixpoint count (p : effect → bool) (t : list effect) : nat :=
  match t with
  | [] => 0%nat
  | e :: rest => ((if p e then 1 else 0) + count p rest)%nat
  end.

(** Since the trace was [t], only effects that satisfy [ok] were added. *)
Definition emitted_only (ok : effect → bool) (t : list effect) (st : State) : Prop :=
  ∃ new, trace st = t ++ new ∧ forallb ok new = true.

(** The fields of the state that belong to the connection: everything but
    the item registry and the trace. *)
Definition connection_part (st : State) :=
  (IS_ONLINE st, IS_READ_ONLY st, HTTP_PREFIX st, HTTP_SESSION st, CONNECT_WAIT st,
   FUT_UUID st, FUT_SSE st, futures st, next_handle st, log_events_debug st).

(** The conditions under which [get], and under which [post], [put] and
    [delete], reach their request. *)
Definition get_passes (url : string) (st : State) : bool :=
  bool_decide (is_Some (HTTP_PREFIX st)) && negb (startswith "/" url) &&
  bool_decide (is_Some (HTTP_SESSION st)).

Definition mutating_passes (url : string) (st : State) : bool :=
  get_passes url st && negb (IS_READ_ONLY st) && IS_ONLINE st.

(** What handling a frame may do to the outside: log, set an item's value,
    post an event. *)
Definition is_dispatch_effect (e : effect) : bool :=
  match e with
  | ELogEvent _ | ELogException _ | ESetValue _ _ | EPostEvent _ _ => true
  | _ => false
  end.

(** The constructors of the registered event classes raise nothing but
    subclasses of [Exception]. *)
Definition raises_only_exceptions (event_lookup : gmap string map_events.EventClass)
    : Prop :=
  ∀ n cls topic payload,
    event_lookup !! n = Some cls →
    map_events.from_dict cls topic payload ≠ inl CancelledError.

(** What tearing a connection down may do to the outside: cancel a task,
    close a session. *)
Definition is_teardown_effect (e : effect) : bool :=
  match e with
  | ECancel _ | ECloseSession _ => true
  | _ => false
  end.

Definition is_ENewSession (e : effect) : bool :=
  match e with ENewSession _ _ => true | _ => false end.

(** Neither handle holds a future that is still pending. *)
Definition handles_settled (st : State) : Prop :=
  (∀ f, FUT_UUID st = Some f → is_pending (futures st) f = false) ∧
  (∀ f, FUT_SSE st = Some f → is_pending (futures st) f = false).

(** The fields that neither stopping nor starting a connection writes. *)
Definition untouched_by_stop (st : State) :=
  (IS_ONLINE st, IS_READ_ONLY st, CONNECT_WAIT st, Items st, log_events_debug st).

(** [f'ws://{host:s}:{port:d}'], or [wss] when a CA certificate is
    configured. *)
Definition connection_prefix (cfg : http_connection.Connection) (ca_cert : string) : string :=
  (if negb (String.eqb ca_cert EmptyString) then "wss://" else "ws://")
  +:+ http_connection.host cfg +:+ ":" +:+ pretty (http_connection.port cfg).

(** [aiohttp.BasicAuth(user)] when a user is configured. *)
Definition connection_auth (cfg : http_connection.Connection) : option string :=
  if String.eqb (http_connection.user cfg) EmptyString
  then None else Some (http_connection.user cfg).

(** What the listener may do to the outside while the stream lasts: its
    request, and what handling a frame does. *)
Definition is_listener_effect (e : effect) : bool :=
  is_ERequest e || is_dispatch_effect e.

(** The version a root document reports, when the answer to the root
    request has the one shape [try_uuid] gets through: a status below 500
    other than 404 and a JSON object whose member [ha_version] is an object
    with a member [ha_version]. *)
Definition root_version (root_future : exn + ClientResponse) : option json :=
  match root_future with
  | inl _ => None
  | inr resp =>
      if 500 <=? status resp then None else
      if status resp =? 404 then None else
      match json_body resp with
      | inr (JObj members) =>
          match json_lookup "ha_version" members with
          | Some (JObj info) => json_lookup "ha_version" info
          | _ => None
          end
      | _ => None
      end
  end.

(** The identity probe fails: the request raises an [Exception], is
    answered with a status of 300 or more, or its body cannot be read. *)
Definition uuid_probe_fails (uuid_future : exn + ClientResponse) : Prop :=
  match uuid_future with
  | inl e => is_Exception e = true
  | inr resp =>
      300 ≤ status resp ∨ ∃ e, text resp = inl e ∧ is_Exception e = true
  end.

(** The first of the three fields [get_event] reads that a frame lacks. *)
Definition first_missing (members : list (string * json)) : option string :=
  match json_lookup "type" members with
  | None => Some "type"
  | Some _ =>
      match json_lookup "topic" members with
      | None => Some "topic"
      | Some _ =>
          match json_lookup "payload" members with
          | None => Some "payload"
          | Some _ => None
          end
      end
  end.

(** The error of a frame that is not an object or lacks a field. *)
Definition malformed_frame (event_dict : json) : option exn :=
  match event_dict with
  | JObj members => KeyError <$> first_missing members
  | _ => Some TypeError
  end.

Definition is_EPostEvent (e : effect) : bool :=
  match e with EPostEvent _ _ => true | _ => false end.

(** The handshake handle is set: [set_offline] can restart the handshake. *)
Definition handshake_set (st : State) : Prop := is_Some (FUT_UUID st).

(** * Concrete states and inputs *)

Module Samples.
Import http_connection.

Definition prefix : string := "ws://localhost:8123".

(** The module as imported: nothing configured. *)
Definition st_boot : State :=
  mkState false false None None (mkWait 1 600 1) None None ∅ 0 ∅ false [].

(** After [start_connection]: session 0 and a pending handshake task 1. *)
Definition st_started : State :=
  mkState false false (Some prefix) (Some 0%nat) (mkWait 1 600 1)
          (Some 1%nat) None {[1%nat := Pending]} 2 {["Lamp" := JStr "OFF"]} false [].

(** Online: the handshake task 1 has finished, the stream task 2 runs. *)
Definition st_online : State :=
  mkState true false (Some prefix) (Some 0%nat) (mkWait 1 600 2)
          (Some 1%nat) (Some 2%nat) {[1%nat := Finished; 2%nat := Pending]} 3
          {["Lamp" := JStr "OFF"]} false [].

Definition st_read_only : State :=
  mkState true true (Some prefix) (Some 0%nat) (mkWait 1 600 2)
          (Some 1%nat) (Some 2%nat) {[1%nat := Finished; 2%nat := Pending]} 3
          {["Lamp" := JStr "OFF"]} false [].

Definition resp_unavailable : ClientResponse :=
  mkResponse 503 METH_GET (rest_url prefix "uuid") (inr "Service Unavailable")
             (inl (OtherException "ContentTypeError")).

Definition resp_uuid : ClientResponse :=
  mkResponse 200 METH_GET (rest_url prefix "uuid")
             (inr "0c7a2a1e-4f0b-4a57-9a59-5f1f3f6f2b11")
             (inl (OtherException "ContentTypeError")).

Definition resp_root_404 : ClientResponse :=
  mkResponse 404 METH_GET (rest_url prefix EmptyString) (inr "Not Found")
             (inl (OtherException "ContentTypeError")).

(** The one shape of root document on which [try_uuid] goes through: the
    member [ha_version] is itself an object with a member [ha_version]. *)
Definition resp_root_nested : ClientResponse :=
  mkResponse 200 METH_GET (rest_url prefix EmptyString) (inr EmptyString)
             (inr (JObj [("ha_version", JObj [("ha_version", JStr "2021.1")])])).

Definition quoted (s : string) : string := String dquote (s +:+ String dquote EmptyString).

(** A decoder that knows the documents of a table and rejects every other
    text as malformed. *)
Definition table_decoder (table : list (string * json)) (doc : string)
    : decode_failure + json :=
  match json_lookup doc table with
  | Some j => inr j
  | None => inl Malformed
  end.

(** A frame of a registered type and the frame of the spec's scenario, of
    the unregistered type [X] with the payload NONE in double quotes. *)
Definition lamp_frame : json :=
  JObj [("type", JStr "ItemStateEvent"); ("topic", JStr "Lamp");
        ("payload", JStr (quoted "ON"))].

Definition unknown_frame : json :=
  JObj [("type", JStr "X"); ("topic", JStr "t");
        ("payload", JStr map_events.NONE_token)].

Definition load_json : string → decode_failure + json :=
  table_decoder [("null", JNull); (quoted "ON", JStr "ON");
                 ("lamp frame", lamp_frame); ("unknown frame", unknown_frame)].

(** A registry with one class, whose events are value updates named by the
    topic. *)
Definition ItemStateEvent : map_events.EventClass :=
  map_events.mkEventClass "ItemStateEvent"
    (λ topic payload,
       match topic with
       | JStr t => inr (mkEvent "ItemStateEvent" t (ValueUpdateEvent payload))
       | _ => inl TypeError
       end).

Definition event_lookup : gmap string map_events.EventClass :=
  map_events.event_lookup_of [ItemStateEvent].

Definition lamp_event : HomeassistantEvent :=
  mkEvent "ItemStateEvent" "Lamp" (ValueUpdateEvent (JStr "ON")).

(** An online connection that was started again and then stopped before
    the new handshake ran: [stop_connection] has cancelled the pending
    handshake and unset its handle, and the flag is still online. *)
Definition cfg_localhost : Connection :=
  mkConnection "localhost" 8123 EmptyString EmptyString.

Definition st_stopped : State :=
  (stop_connection
     (start_connection cfg_localhost (inr EmptyString) (inr false) st_online).2).2.

(** Tables for [create_item]. *)
Definition item_types : list string := ["String"; "Number"; "Switch"; "Group"].
Definition item_dimensions : list string := ["Length"; "Temperature"].
Definition group_functions : list string := ["AND"; "OR"; "AVG"].

End Samples.

(** * Verification *)

(** ** Running the monad *)

Ltac run :=
  cbv [bind ret raise gets modify emit log when lift try_except
       fut_done fut_cancel schedule http_connection.session_request].

Lemma bind_run {A B} (m : M A) (k : A → M B) st :
  bind m k st =
  match m st with
  | (inl e, st') => (inl e, st')
  | (inr a, st') => k a st'
  end.
Proof. reflexivity. Qed.

Lemma is_pending_cancel_other futs f g :
  f ≠ g → is_pending (<[f := Cancelled]> futs) g = is_pending futs g.
Proof. intros H. unfold is_pending. by rewrite lookup_insert_ne. Qed.

(** Evaluation of a run on a symbolic state: compute, and rewrite with what
    is known of the state's fields. *)
Ltac simp_state :=
  repeat (simpl;
          match goal with
          | H : ?l = _ |- context [?l] => rewrite H
          | |- context [is_pending (<[_ := Cancelled]> _) _] =>
              rewrite is_pending_cancel_other by done
          end);
  simpl.

(** ** Mutating requests: C3 and C10 *)

Section requests.
Import http_connection.
Variables (url : string) (log_404 : bool) (json_arg data : option json).
Variable future : exn + ClientResponse.

(** C10. Before a URL prefix is set, [post], [put] and [delete] raise the
    not-set-up error and leave the state as it is, whatever the read-only
    and online flags are: the configuration check comes before the
    silent no-op. *)
Theorem mutating_not_set_up (st : State) :
  HTTP_PREFIX st = None →
  post url log_404 json_arg data future st = (inl HomeassistantConnectionNotSetUpError, st) ∧
  put url log_404 json_arg data future st = (inl HomeassistantConnectionNotSetUpError, st) ∧
  delete url log_404 json_arg data future st = (inl HomeassistantConnectionNotSetUpError, st).
Proof.
  intros H. unfold post, put, delete. run. rewrite H. done.
Qed.
End requests.

(** ** A small program logic *)

Section rules.
Context {A B : Type}.
Implicit Types P : State → Prop.

Lemma hoare_ret P (a : A) (Q : A → State → Prop) E :
  (∀ st, P st → Q a st) → hoare P (ret a) Q E.
Proof. intros H st HP. by apply H. Qed.

Lemma hoare_raise P e (Q : A → State → Prop) (E : exn → State → Prop) :
  (∀ st, P st → E e st) → hoare P (raise e) Q E.
Proof. intros H st HP. by apply H. Qed.

Lemma hoare_bind P (m : M A) (k : A → M B) R Q E :
  hoare P m R E → (∀ a, hoare (R a) (k a) Q E) → hoare P (bind m k) Q E.
Proof.
  intros Hm Hk st HP. rewrite bind_run. specialize (Hm st HP).
  destruct (m st) as [[e|a] st']; [done|]. by apply Hk.
Qed.

Lemma hoare_try P (m : M A) filter h Q E E' :
  hoare P m Q E' →
  (∀ e, filter e = true → hoare (E' e) (h e) Q E) →
  (∀ e st, filter e = false → E' e st → E e st) →
  hoare P (try_except m filter h) Q E.
Proof.
  intros Hm Hh Hpass st HP. unfold try_except. specialize (Hm st HP).
  destruct (m st) as [[e|a] st']; [|done].
  destruct (filter e) eqn:Hf; [by apply Hh | by apply Hpass].
Qed.

Lemma hoare_conseq P P' (m : M A) Q Q' E E' :
  hoare P' m Q' E' →
  (∀ st, P st → P' st) →
  (∀ a st, Q' a st → Q a st) →
  (∀ e st, E' e st → E e st) →
  hoare P m Q E.
Proof.
  intros Hm HP HQ HE st Hst. specialize (Hm st (HP st Hst)).
  destruct (m st) as [[e|a] st']; auto.
Qed.

Lemma hoare_gets P (f : State → A) (Q : A → State → Prop) E :
  (∀ st, P st → Q (f st) st) → hoare P (gets f) Q E.
Proof. intros H st HP. by apply H. Qed.

Lemma hoare_lift P (r : exn + A) (Q : A → State → Prop) (E : exn → State → Prop) :
  (∀ st, P st → match r with inl e => E e st | inr a => Q a st end) →
  hoare P (lift r) Q E.
Proof. intros H st HP. specialize (H st HP). by destruct r. Qed.

Lemma stable_ret P (a : A) : stable P (ret a).
Proof. by apply hoare_ret. Qed.

Lemma stable_raise P e : stable P (raise e : M A).
Proof. by apply hoare_raise. Qed.

Lemma stable_gets P (f : State → A) : stable P (gets f).
Proof. by apply hoare_gets. Qed.

Lemma stable_lift P (r : exn + A) : stable P (lift r).
Proof. apply hoare_lift. intros st HP. by destruct r. Qed.

Lemma stable_bind P (m : M A) (k : A → M B) :
  stable P m → (∀ a, stable P (k a)) → stable P (bind m k).
Proof. intros Hm Hk. eapply hoare_bind; [exact Hm | exact Hk]. Qed.

Lemma stable_try P (m : M A) filter h :
  stable P m → (∀ e, stable P (h e)) → stable P (try_except m filter h).
Proof.
  intros Hm Hh. eapply hoare_try; [exact Hm | intros; apply Hh | done].
Qed.
End rules.

Lemma stable_hoare {A} P (m : M A) (Q : A → State → Prop) (E : exn → State → Prop) :
  stable P m → (∀ a st, P st → Q a st) → (∀ e st, P st → E e st) → hoare P m Q E.
Proof. intros H HQ HE. eapply hoare_conseq; [exact H | done | exact HQ | exact HE]. Qed.

Lemma hoare_modify P (f : State → State) (Q : unit → State → Prop) E :
  (∀ st, P st → Q tt (f st)) → hoare P (modify f) Q E.
Proof. intros H st HP. by apply H. Qed.

Lemma stable_modify P (f : State → State) :
  (∀ st, P st → P (f st)) → stable P (modify f).
Proof. intros H. by apply hoare_modify. Qed.

Lemma stable_when P (b : bool) (m : M unit) : stable P m → stable P (when b m).
Proof. intros H. destruct b; [done | apply stable_ret]. Qed.

(** One step of a [stable] proof: through the monad's combinators, and by
    cases on the conditions the program tests. *)
Ltac stable_step :=
  lazymatch goal with
  | |- stable _ (bind _ _) => apply stable_bind; [|intros ?]
  | |- stable _ (try_except _ _ _) => apply stable_try; [|intros ?]
  | |- stable _ (ret _) => apply stable_ret
  | |- stable _ (raise _) => apply stable_raise
  | |- stable _ (gets _) => apply stable_gets
  | |- stable _ (lift _) => apply stable_lift
  | |- stable _ (when _ _) => apply stable_when
  | |- stable _ (if ?b then _ else _) => destruct b
  | |- stable _ (match ?x with _ => _ end) => destruct x
  end.

(** *** Properties kept by the offline transition and by requests *)

(** A property of the state that does not mind the flag going offline, the
    stream handle being cleared, the handshake handle being replaced, the
    event loop's bookkeeping, or a longer trace, is kept by [set_offline]
    and by everything built from it. *)
Section frame.
Import http_connection.
Variable P : State → Prop.
Hypothesis P_offline : ∀ st, P st → P (set_IS_ONLINE false st).
Hypothesis P_no_sse : ∀ st, P st → P (set_FUT_SSE None st).
Hypothesis P_uuid : ∀ st f, P st → P (set_FUT_UUID f st).
Hypothesis P_futures : ∀ st m, P st → P (set_futures m st).
Hypothesis P_handle : ∀ st n, P st → P (set_next_handle n st).
Hypothesis P_emit : ∀ st e, P st → P (set_trace (trace st ++ [e]) st).

Lemma stable_emit e : stable P (emit e).
Proof. apply stable_modify. intros st. apply P_emit. Qed.

Lemma stable_log lvl msg : stable P (log lvl msg).
Proof. apply stable_emit. Qed.

Lemma stable_fut_done f : stable P (fut_done f).
Proof. apply stable_gets. Qed.

Lemma stable_fut_cancel f : stable P (fut_cancel f).
Proof.
  unfold fut_cancel. apply stable_bind; [apply stable_emit | intros _].
  apply stable_modify. intros st HP. destruct (is_pending _ _); auto.
Qed.

Lemma stable_schedule c : stable P (schedule c).
Proof.
  unfold schedule. stable_step; [stable_step|].
  stable_step; [apply stable_modify; auto|].
  stable_step; [apply stable_emit | stable_step].
Qed.

Ltac frame_step :=
  first [ apply stable_emit | apply stable_log | apply stable_fut_done
        | apply stable_fut_cancel | apply stable_schedule
        | apply stable_modify; solve [auto]
        | stable_step ].

Lemma stable_set_offline log_msg : stable P (set_offline log_msg).
Proof. unfold set_offline. repeat frame_step. Qed.

Lemma stable_is_disconnect_exception e : stable P (is_disconnect_exception e).
Proof.
  unfold is_disconnect_exception.
  repeat first [ apply stable_set_offline | frame_step ].
Qed.

Lemma stable_check_response future sent_data log_404 disconnect_on_error :
  stable P (check_response future sent_data log_404 disconnect_on_error).
Proof.
  unfold check_response.
  repeat first [ apply stable_set_offline | apply stable_is_disconnect_exception
               | frame_step ].
Qed.
End frame.

(** ** The offline transition: C2 *)

Section offline.
Import http_connection.

(** Where the offline transition restarts the handshake.  [set_offline]
    called while offline returns at once: the state, trace included, is
    the one it was called in.  Called while online, with the handshake
    handle [FUT_UUID] holding a future [u] other than the stream's, it
    ends with the flag offline, the stream handle cleared and a fresh
    future in [FUT_UUID], and it has done exactly this to the outside, in
    this order: logged the disconnect, cancelled the stream task if it was
    pending, called [ON_DISCONNECTED] once, cancelled [u] if it was
    pending, and scheduled one [try_uuid]. *)
Theorem set_offline_idempotent_restart (log_msg : string) (st : State) :
  (IS_ONLINE st = false → set_offline log_msg st = (inr tt, st)) ∧
  (∀ u, IS_ONLINE st = true → FUT_UUID st = Some u → FUT_SSE st ≠ Some u →
     ∃ st', set_offline log_msg st = (inr tt, st') ∧
       IS_ONLINE st' = false ∧
       FUT_SSE st' = None ∧
       FUT_UUID st' = Some (next_handle st) ∧
       futures st' !! next_handle st = Some Pending ∧
       trace st' =
         trace st ++
         [ELog WARNING ("Disconnected! " +:+ log_msg)] ++
         cancel_pending (futures st) (FUT_SSE st) ++
         [EOnDisconnected] ++
         cancel_pending (futures st) (Some u) ++
         [ESchedule Co_try_uuid (next_handle st)]).
Proof.
  split.
  - intros H. unfold set_offline. run. by rewrite H.
  - intros u Hon Hu Hne.
    destruct (FUT_SSE st) as [s|] eqn:Hs;
      [assert (s ≠ u) by congruence; destruct (is_pending (futures st) s) eqn:Hps|];
      destruct (is_pending (futures st) u) eqn:Hpu;
      unfold set_offline; run; simp_state.
    all: eexists; (split; [reflexivity|]); simpl.
    all: rewrite lookup_insert_eq, <- ?app_assoc; done.
Qed.

(** Online without a handshake handle, a state no handshake leaves behind,
    the call stops at [FUT_UUID.done()]: after the callback, with nothing
    scheduled. *)
Lemma set_offline_without_handle (log_msg : string) (st : State) :
  IS_ONLINE st = true → FUT_UUID st = None →
  (set_offline log_msg st).1 = inl AttributeError ∧
  IS_ONLINE (set_offline log_msg st).2 = false ∧
  trace (set_offline log_msg st).2 =
    trace st ++
    [ELog WARNING ("Disconnected! " +:+ log_msg)] ++
    cancel_pending (futures st) (FUT_SSE st) ++
    [EOnDisconnected].
Proof.
  intros Hon Hu.
  destruct (FUT_SSE st) as [s|] eqn:Hs;
    [destruct (is_pending (futures st) s) eqn:Hps|];
    unfold set_offline; run; simp_state;
    rewrite <- ?app_assoc; done.
Qed.

(** C2.  Called while online with the handshake handle [FUT_UUID] unset,
    as [stop_connection] leaves it when it cancels the pending handshake
    of an online connection, [set_offline] does not restart the
    handshake.  It flips the flag offline, cancels the stream task if it
    is pending, clears the stream handle and calls [ON_DISCONNECTED]
    once; then [FUT_UUID.done()] raises [AttributeError].  Nothing is
    scheduled and the handle stays unset; and the flag being offline now,
    every later call returns at once, so no later call makes up for the
    missed restart. *)
Theorem set_offline_unset_handle (log_msg : string) (st : State) :
  IS_ONLINE st = true → FUT_UUID st = None →
  let r := set_offline log_msg st in
  r.1 = inl AttributeError ∧
  IS_ONLINE r.2 = false ∧ FUT_SSE r.2 = None ∧ FUT_UUID r.2 = None ∧
  trace r.2 =
    trace st ++
    [ELog WARNING ("Disconnected! " +:+ log_msg)] ++
    cancel_pending (futures st) (FUT_SSE st) ++
    [EOnDisconnected] ∧
  (∀ later, set_offline later r.2 = (inr tt, r.2)).
Proof.
  intros Hon Hu.
  assert (∀ x later, IS_ONLINE x = false → set_offline later x = (inr tt, x))
    as Hnoop.
  { intros x later Hx. unfold set_offline. run. by rewrite Hx. }
  assert (∃ st', set_offline log_msg st = (inl AttributeError, st') ∧
            IS_ONLINE st' = false ∧ FUT_SSE st' = None ∧ FUT_UUID st' = None ∧
            trace st' =
              trace st ++
              [ELog WARNING ("Disconnected! " +:+ log_msg)] ++
              cancel_pending (futures st) (FUT_SSE st) ++
              [EOnDisconnected])
    as (st' & Hrun & Hoff & Hsse & Hfut & Htrace).
  { destruct (FUT_SSE st) as [s|] eqn:Hs;
      [destruct (is_pending (futures st) s) eqn:Hps|];
      unfold set_offline; run; simp_state;
      (eexists; split; [reflexivity|]); simpl; rewrite <- ?app_assoc; done. }
  rewrite Hrun. simpl. do 5 (split; [done|]).
  intros later. by apply Hnoop.
Qed.
End offline.

(** ** Requests in read-only mode or offline: C3 *)

Lemma extends_emit t st e :
  extends t st → extends t (set_trace (trace st ++ [e]) st).
Proof. intros [rest H]. exists (rest ++ [e]). simpl. by rewrite H, app_assoc. Qed.

Section no_op.
Import http_connection.
Variables (url : string) (log_404 disconnect_on_error : bool).
Variables (json_arg data : option json).
Variable future : exn + ClientResponse.

(** C3. With a URL prefix set, [post], [put] and [delete] called in
    read-only mode or while offline return [None] in the state they were
    called in: nothing is added to the trace, so no request is made.
    [get], given a session and a URL that passes its assertion, makes
    its request in every state, whatever the two flags are: the request
    is the first thing it adds to the trace. *)
Theorem read_only_offline_no_op (st : State) (p : string) :
  HTTP_PREFIX st = Some p →
  (IS_READ_ONLY st = true ∨ IS_ONLINE st = false →
     post url log_404 json_arg data future st = (inr None, st) ∧
     put url log_404 json_arg data future st = (inr None, st) ∧
     delete url log_404 json_arg data future st = (inr None, st)) ∧
  (∀ s, HTTP_SESSION st = Some s → startswith "/" url = false →
     extends (trace st ++ [ERequest METH_GET (rest_url p url) None None None])
             (get url log_404 disconnect_on_error future st).2).
Proof.
  intros H. split.
  - intros Hflag. unfold post, put, delete. run. rewrite H.
    destruct Hflag as [-> | ->]; [done|].
    by rewrite orb_true_r.
  - intros s Hs Hurl. unfold get. run. simp_state.
    set (t := trace st ++ [ERequest METH_GET (rest_url p url) None None None]).
    pose proof (stable_check_response (extends t)) as Hstable.
    match goal with
    | |- extends t (check_response ?f ?d ?l ?e ?st1).2 =>
        specialize (Hstable ltac:(done) ltac:(done) ltac:(done) ltac:(done)
                      ltac:(done) ltac:(intros; by apply extends_emit) f d l e st1)
    end.
    simpl in Hstable.
    destruct (check_response _ _ _ _ _) as [[e|a] st'];
      apply Hstable; exists []; simpl; by rewrite app_nil_r.
Qed.
End no_op.

(** ** The response checker: C5 *)

Section checker.
Import http_connection.

Lemma set_offline_returns log_msg st :
  handshake_tracked st →
  (set_offline log_msg st).1 = inr tt ∧ IS_ONLINE (set_offline log_msg st).2 = false.
Proof.
  intros Htracked. unfold set_offline. run.
  destruct (IS_ONLINE st) eqn:Hon; simpl; [|done].
  destruct (Htracked Hon) as [u Hu].
  destruct (FUT_SSE st) as [s|] eqn:Hs; simp_state.
  - destruct (is_pending (futures st) s) eqn:Hps; simp_state;
      destruct (is_pending _ u) eqn:Hpu; simp_state; done.
  - destruct (is_pending (futures st) u) eqn:Hpu; simp_state; done.
Qed.

(** C5. For a response [resp]: a status of 500 or more runs the offline
    transition and raises [HomeassistantNotReadyYet]; below 500, with
    [disconnect_on_error] chosen, a status of 400 or more runs the offline
    transition and raises [ExpectedSuccessFromHomeassistant]; in every
    other case [resp] is returned, and the only thing done is the status
    warning (with its debug record), logged exactly when the status is 300
    or more and not a 404 with [log_404] off.  The two failing cases are
    stated for a state whose handshake handle is tracked, which the
    offline transition dereferences, and the second for a state with the
    URL prefix set, which its message formats. *)
Theorem check_response_status (resp : ClientResponse) (sent_data : option json)
    (log_404 disconnect_on_error : bool) (st : State) :
  let result := check_response (inr resp) sent_data log_404 disconnect_on_error st in
  (handshake_tracked st → 500 ≤ status resp →
     result = (inl HomeassistantNotReadyYet, (set_offline (status_message resp) st).2) ∧
     IS_ONLINE result.2 = false) ∧
  (∀ p, handshake_tracked st → HTTP_PREFIX st = Some p →
     status resp < 500 → disconnect_on_error = true → 400 ≤ status resp →
     result = (inl ExpectedSuccessFromHomeassistant,
               (set_offline (expected_success_message p resp) st).2) ∧
     IS_ONLINE result.2 = false) ∧
  (status resp < 500 → disconnect_on_error = false ∨ status resp < 400 →
     result =
       (inr resp,
        if logs_status (status resp) log_404
        then set_trace (trace st ++
                        [ELogStatus (status resp) (request_method resp)
                                    (request_url resp) sent_data;
                         ELog DEBUG "<ClientResponse>"]) st
        else st)).
Proof.
  intros result. subst result.
  unfold check_response. rewrite bind_run. simpl.
  split; [|split].
  - intros Htracked H500.
    destruct (Z.leb_spec 500 (status resp)); [|lia].
    rewrite bind_run.
    pose proof (set_offline_returns (status_message resp) st Htracked) as [Hr Hoff].
    fold (status_message resp).
    destruct (set_offline _ st) as [r st']. simpl in Hr, Hoff. by subst r.
  - intros p Htracked Hp Hlt -> H400.
    destruct (Z.leb_spec 500 (status resp)); [lia|].
    destruct (Z.leb_spec 400 (status resp)); [|lia]. simpl.
    rewrite bind_run. simpl. rewrite Hp. rewrite bind_run.
    pose proof (set_offline_returns (expected_success_message p resp) st Htracked)
      as [Hr Hoff].
    fold (expected_success_message p resp).
    destruct (set_offline _ st) as [r st']. simpl in Hr, Hoff. by subst r.
  - intros Hlt Hno.
    destruct (Z.leb_spec 500 (status resp)); [lia|].
    assert (disconnect_on_error && (400 <=? status resp) = false) as ->.
    { destruct Hno as [-> | Hno]; [done|].
      destruct (Z.leb_spec 400 (status resp)); [lia|]. by rewrite andb_false_r. }
    unfold logs_status.
    destruct (300 <=? status resp); simpl; [|done].
    destruct ((status resp =? 404) && negb log_404); simpl; [done|].
    run. simpl. unfold set_trace. simpl. by rewrite <- app_assoc.
Qed.
End checker.

(** ** The event stream: C7 *)

Section stream.
Import http_connection.
Context (load_json : string → decode_failure + json).
Context (ON_SSE_EVENT : json → M unit).

Lemma sse_frame_undecodable data failure st :
  load_json data = inl failure →
  sse_frame load_json ON_SSE_EVENT data st = (inr tt, st).
Proof.
  intros H. unfold sse_frame, py_load_json. run. rewrite H.
  by destruct failure.
Qed.

Lemma sse_frame_decoded data event st :
  load_json data = inr event →
  sse_frame load_json ON_SSE_EVENT data st =
  ON_SSE_EVENT event
    (if log_events_debug st then set_trace (trace st ++ [ELogEvent event]) st else st).
Proof.
  intros H. unfold sse_frame, py_load_json. run. rewrite H. simpl.
  destruct (log_events_debug st); simpl; by destruct (ON_SSE_EVENT _ _) as [[?|[]] ?].
Qed.

Lemma sse_loop_cons data rest st :
  sse_loop load_json ON_SSE_EVENT (data :: rest) st =
  match sse_frame load_json ON_SSE_EVENT data st with
  | (inl e, st') => (inl e, st')
  | (inr _, st') => sse_loop load_json ON_SSE_EVENT rest st'
  end.
Proof. reflexivity. Qed.

(** C7. A frame whose body the JSON decoder rejects is dropped silently:
    handling it returns in the state it started in, with nothing logged
    and the callback not called; the loop over a stream that has such a
    frame anywhere in it, and the whole listener, run exactly as they do
    on the stream without the frame, so every other frame is decoded and
    forwarded as before. *)
Theorem undecodable_frame_dropped (data : string) (failure : decode_failure)
    (before after : list string) (ending : option exn) (st : State) :
  load_json data = inl failure →
  sse_frame load_json ON_SSE_EVENT data st = (inr tt, st) ∧
  sse_loop load_json ON_SSE_EVENT (before ++ data :: after) st =
    sse_loop load_json ON_SSE_EVENT (before ++ after) st ∧
  start_sse_event_listener load_json ON_SSE_EVENT (before ++ data :: after) ending st =
    start_sse_event_listener load_json ON_SSE_EVENT (before ++ after) ending st.
Proof.
  intros H.
  assert (Hloop : ∀ st, sse_loop load_json ON_SSE_EVENT (before ++ data :: after) st =
                        sse_loop load_json ON_SSE_EVENT (before ++ after) st).
  { induction before as [|d before IH]; intros st0.
    - simpl app. rewrite sse_loop_cons.
      by rewrite (sse_frame_undecodable _ _ _ H).
    - rewrite <- !app_comm_cons, !sse_loop_cons.
      destruct (sse_frame _ _ d st0) as [[e|[]] st1]; [done | apply IH]. }
  split; [by eapply sse_frame_undecodable|]. split; [apply Hloop|].
  unfold start_sse_event_listener, try_except.
  rewrite !bind_run. simpl. rewrite !bind_run. simpl. rewrite !bind_run.
  by rewrite Hloop.
Qed.
End stream.

(** ** The dispatch bridge and the decoder: C4 and C6 *)

Lemma source_registry_empty : map_events.__event_lookup = ∅.
Proof. reflexivity. Qed.

Section dispatch.
Import map_events connection.
Context (load_json : string → decode_failure + json).
Context (event_lookup : gmap string EventClass).

Local Abbreviation get_event := (map_events.get_event load_json event_lookup).
Local Abbreviation on_sse_event := (connection.on_sse_event load_json event_lookup).

(** C4. For a frame that decodes to a value-update event: if the event's
    name is in the item registry, the handler sets the item's value and
    then posts the event, in this order and nothing else; if the name is
    not in the registry, the handler only posts the event.  Either way
    the event is posted once. *)
Theorem value_update_before_post (event_dict : json) (event : HomeassistantEvent)
    (value : json) (st : State) :
  get_event event_dict = inr event →
  kind event = ValueUpdateEvent value →
  (is_Some (Items st !! name event) →
     on_sse_event event_dict st =
       (inr tt,
        set_Items (<[name event := value]> (Items st))
          (set_trace (trace st ++ [ESetValue (name event) value;
                                   EPostEvent (name event) event]) st))) ∧
  (Items st !! name event = None →
     on_sse_event event_dict st =
       (inr tt, set_trace (trace st ++ [EPostEvent (name event) event]) st)).
Proof.
  intros Hev Hkind.
  unfold connection.on_sse_event, ignore_exception, on_sse_event__wrapped.
  unfold Items_get_item, set_value, post_event.
  run. rewrite Hev, Hkind. simpl. split.
  - intros [old Hold]. rewrite Hold. simpl.
    unfold set_Items, set_trace. simpl. by rewrite <- app_assoc.
  - intros Hnone. by rewrite Hnone.
Qed.

Lemma get_event_unknown_type (event_dict : json) (event_type : string)
    (topic payload : json) (p_str : string) :
  py_subscript event_dict "type" = inr (JStr event_type) →
  py_subscript event_dict "topic" = inr topic →
  py_subscript event_dict "payload" = inr (JStr p_str) →
  load_payload load_json (JStr p_str) = inr payload →
  event_lookup !! event_type = None →
  get_event event_dict = inl (ValueError (UnknownEvent event_type event_dict)).
Proof.
  intros Htype Htopic Hpayload Hload Hlookup.
  unfold map_events.get_event. rewrite Htype, Htopic, Hpayload, Hload.
  unfold construct. by rewrite Hlookup.
Qed.

(** A payload text that does not decode fails before the registry is
    looked at: [get_event] raises the decoder's error. *)
Lemma get_event_undecodable_payload (event_dict event_type topic p_str : json) (e : exn) :
  py_subscript event_dict "type" = inr event_type →
  py_subscript event_dict "topic" = inr topic →
  py_subscript event_dict "payload" = inr p_str →
  load_payload load_json p_str = inl e →
  get_event event_dict = inl e.
Proof.
  intros Htype Htopic Hpayload Hload.
  unfold map_events.get_event. by rewrite Htype, Htopic, Hpayload, Hload.
Qed.

(** C6. For a frame (an object with a type name, a topic and a payload
    text that is JSON-encoded) whose type name is not in the registry of
    event classes: [get_event] raises the unknown-event [ValueError];
    the decorated handler catches it, reports it, and returns without
    touching the registry or the bus; and the stream loop, in whatever
    state the frame reaches it, goes on with the frames that follow. *)
Theorem unknown_event_raised_and_isolated (event_dict : json) (event_type : string)
    (topic payload : json) (p_str : string) (st : State) :
  py_subscript event_dict "type" = inr (JStr event_type) →
  py_subscript event_dict "topic" = inr topic →
  py_subscript event_dict "payload" = inr (JStr p_str) →
  load_payload load_json (JStr p_str) = inr payload →
  event_lookup !! event_type = None →
  let unknown := ValueError (UnknownEvent event_type event_dict) in
  get_event event_dict = inl unknown ∧
  on_sse_event event_dict st =
    (inr tt, set_trace (trace st ++ [ELogException unknown]) st) ∧
  (∀ data after,
     load_json data = inr event_dict →
     http_connection.sse_loop load_json on_sse_event (data :: after) st =
     http_connection.sse_loop load_json on_sse_event after
       (set_trace (trace st ++
                   (if log_events_debug st then [ELogEvent event_dict] else []) ++
                   [ELogException unknown]) st)).
Proof.
  intros Htype Htopic Hpayload Hload Hlookup unknown.
  pose proof (get_event_unknown_type _ _ _ _ _ Htype Htopic Hpayload Hload Hlookup)
    as Hraise.
  assert (Hhandler : ∀ st, on_sse_event event_dict st =
            (inr tt, set_trace (trace st ++ [ELogException unknown]) st)).
  { intros st0.
    unfold connection.on_sse_event, ignore_exception, on_sse_event__wrapped.
    run. by rewrite Hraise. }
  split; [done|]. split; [apply Hhandler|].
  intros data after Hdata.
  rewrite sse_loop_cons, (sse_frame_decoded _ _ _ _ _ Hdata), Hhandler.
  destruct (log_events_debug st); [|done].
  unfold set_trace. simpl. by rewrite <- app_assoc.
Qed.
End dispatch.

(** ** The handshake: C1 *)

Create HintDb state_props.

#[local] Hint Unfold extends : state_props.

(** Proofs that a concrete property of some fields is [stable]: step through
    the program, and at every change of the state let [side] show that the
    property is kept.  [known] comes first, for the steps that have a lemma
    of their own. *)
Ltac side :=
  intros;
  autounfold with state_props in *;
  repeat match goal with
         | |- context [if ?b then _ else _] => destruct b
         end;
  simpl in *;
  intuition (eauto; try congruence);
  try match goal with
      | H : is_Some None |- _ => destruct H as [? ?]; discriminate
      end.

Ltac fold_stable :=
  lazymatch goal with
  | |- hoare ?P ?m _ _ => change (stable P m)
  end.

Ltac stable_with known :=
  repeat first
    [ known
    | stable_step
    | apply stable_modify; solve [side]
    | progress unfold emit, log, fut_done, fut_cancel, schedule,
        http_connection.session_request ].

Section handshake.
Import http_connection.

(** C1. In a state with prefix and session set, when the identity probe
    succeeds (a status below 300 and a body) and the root endpoint
    answers 404, [try_uuid] raises [TypeError]: the root is taken to be
    the empty object, [root.get('ha_version')] is [None], and the
    subscript [info["ha_version"]] fails.  The flag stays as it was, no
    stream task is started, no retry is scheduled and [ON_CONNECTED] is
    not called: all the run has done is sleep, make the two requests and
    write three log records. *)
Theorem try_uuid_root_404 (st : State) (p : string) (s : nat)
    (uuid_resp root_resp : ClientResponse) (uuid : string) :
  HTTP_PREFIX st = Some p →
  HTTP_SESSION st = Some s →
  status uuid_resp < 300 →
  text uuid_resp = inr uuid →
  status root_resp = 404 →
  ∃ st',
    try_uuid (inr uuid_resp) (inr root_resp) st = (inl TypeError, st') ∧
    IS_ONLINE st' = IS_ONLINE st ∧
    FUT_SSE st' = FUT_SSE st ∧
    FUT_UUID st' = FUT_UUID st ∧
    futures st' = futures st ∧
    trace st' =
      trace st ++
      [ESleep (lastWaitDuration (CONNECT_WAIT st));
       ELog DEBUG "Trying to connect to Homeassistant ...";
       ERequest METH_GET (rest_url p "uuid") None None None;
       ERequest METH_GET (rest_url p EmptyString) None None None;
       ELog INFO ((if IS_READ_ONLY st
                   then "Connected read only to Homeassistant instance "
                   else "Connected to Homeassistant instance ") +:+ uuid)].
Proof.
  intros Hp Hs Hlt Htext H404.
  assert (H500 : (500 <=? status uuid_resp) = false) by lia.
  assert (H300 : (300 <=? status uuid_resp) = false) by lia.
  unfold try_uuid, CONNECT_WAIT_wait, async_get_uuid, async_get_root, get,
    check_response.
  run. simp_state.
  destruct (IS_READ_ONLY st); simpl;
    (eexists; split; [reflexivity|]; simpl; repeat split; try done;
     by rewrite <- !app_assoc).
Qed.
End handshake.

(** ** The backoff across handshakes: C9 *)

Section backoff.
Import http_connection.

(** C9, as amended.  A handshake attempt touches the backoff timer once,
    in the [wait] that comes before the probe: it begins by sleeping the
    current interval, and whether it then succeeds, fails or raises, the
    timer it leaves behind is the one it found advanced by one step.
    Nothing resets it, and the offline transition leaves it as it is. *)
Theorem try_uuid_advances_backoff (uuid_future root_future : exn + ClientResponse)
    (log_msg : string) (st : State) :
  extends (trace st ++ [ESleep (lastWaitDuration (CONNECT_WAIT st))])
          (try_uuid uuid_future root_future st).2 ∧
  CONNECT_WAIT (try_uuid uuid_future root_future st).2 = wait_advance (CONNECT_WAIT st) ∧
  CONNECT_WAIT (set_offline log_msg st).2 = CONNECT_WAIT st.
Proof.
  set (w := wait_advance (CONNECT_WAIT st)).
  set (t := trace st ++ [ESleep (lastWaitDuration (CONNECT_WAIT st))]).
  assert (H : hoare (λ x, x = st) (try_uuid uuid_future root_future)
                (λ _ x, extends t x ∧ CONNECT_WAIT x = w)
                (λ _ x, extends t x ∧ CONNECT_WAIT x = w)).
  { unfold try_uuid.
    eapply hoare_bind with (R := λ _ x, extends t x ∧ CONNECT_WAIT x = w).
    - intros x ->. unfold CONNECT_WAIT_wait. run. simpl.
      split; [exists []; by rewrite app_nil_r | done].
    - intros _. fold_stable.
      unfold async_get_uuid, async_get_root, get, check_response,
        is_disconnect_exception, set_offline.
      stable_with ltac:(apply stable_modify; intros ? [? ?];
                        split; [by apply extends_emit | done]). }
  assert (H' : stable (λ x, CONNECT_WAIT x = CONNECT_WAIT st) (set_offline log_msg)).
  { unfold set_offline. stable_with fail. }
  specialize (H st eq_refl). specialize (H' st eq_refl).
  destruct (try_uuid _ _ st) as [[e|[]] st'];
    destruct (set_offline _ st) as [[e'|[]] st'']; simpl; intuition.
Qed.
End backoff.

(** ** The connection-state invariant: C8 *)

#[local] Hint Unfold connection_invariant session_when_online stream_only_online
  invariant_with_session : state_props.

Section invariant.
Import http_connection.

Lemma set_offline_session log_msg st :
  HTTP_SESSION (set_offline log_msg st).2 = HTTP_SESSION st.
Proof.
  assert (H : stable (λ x, HTTP_SESSION x = HTTP_SESSION st) (set_offline log_msg)).
  { unfold set_offline. stable_with fail. }
  specialize (H st eq_refl).
  by destruct (set_offline _ st) as [[e|[]] st'].
Qed.

Lemma set_offline_keeps_invariant log_msg st :
  connection_invariant st → connection_invariant (set_offline log_msg st).2.
Proof.
  intros Hinv. unfold set_offline. run.
  destruct (IS_ONLINE st) eqn:Hon; simpl; [|done].
  destruct (FUT_SSE st) as [s|] eqn:Hs; simp_state;
    [destruct (is_pending (futures st) s) eqn:Hps; simp_state|];
    (destruct (FUT_UUID st) as [u|] eqn:Hu; simp_state;
     [destruct (is_pending _ u) eqn:Hpu; simp_state|]);
    (unfold connection_invariant, session_when_online, stream_only_online;
     simpl; rewrite ?Hs; split; [done | intros [? ?]; congruence]).
Qed.

Lemma stable_set_offline_invariant log_msg :
  stable invariant_with_session (set_offline log_msg).
Proof.
  intros st [Hinv Hs].
  pose proof (set_offline_keeps_invariant log_msg st Hinv) as H1.
  pose proof (set_offline_session log_msg st) as H2.
  destruct (set_offline _ st) as [[e|[]] st']; simpl in *;
    (split; [done | by rewrite H2]).
Qed.

Lemma stable_set_offline_invariant_only log_msg :
  stable connection_invariant (set_offline log_msg).
Proof.
  intros st Hinv.
  pose proof (set_offline_keeps_invariant log_msg st Hinv) as H1.
  by destruct (set_offline _ st) as [[e|[]] st'].
Qed.

Lemma stable_check_response_invariant future sent_data log_404 disconnect_on_error :
  stable invariant_with_session
    (check_response future sent_data log_404 disconnect_on_error).
Proof.
  unfold check_response, is_disconnect_exception.
  stable_with ltac:(apply stable_set_offline_invariant).
Qed.

Lemma stable_check_response_invariant_only future sent_data log_404 disconnect_on_error :
  stable connection_invariant
    (check_response future sent_data log_404 disconnect_on_error).
Proof.
  unfold check_response, is_disconnect_exception.
  stable_with ltac:(apply stable_set_offline_invariant_only).
Qed.

(** A request that returns has found the session set. *)
Lemma get_invariant url log_404 disconnect_on_error future :
  hoare connection_invariant (get url log_404 disconnect_on_error future)
    (λ _, invariant_with_session) (λ _, connection_invariant).
Proof.
  intros st Hinv. unfold get. run.
  destruct (HTTP_PREFIX st) as [p|]; [|done].
  destruct (startswith "/" url); [done|].
  destruct (HTTP_SESSION st) as [s|] eqn:Hs; [|done].
  match goal with
  | |- context [check_response ?f ?d ?l ?e ?st1] =>
      pose proof (stable_check_response_invariant f d l e st1) as H
  end.
  destruct (check_response _ _ _ _ _) as [[e|a] st']; apply H;
    (split; [exact Hinv | simpl; by rewrite Hs]).
Qed.

Lemma async_get_uuid_invariant future :
  hoare connection_invariant (async_get_uuid future)
    (λ _, invariant_with_session) (λ _, connection_invariant).
Proof.
  unfold async_get_uuid.
  eapply hoare_bind; [apply get_invariant | intros resp].
  apply stable_hoare; [stable_with fail | done | by intros ? ? [? ?]].
Qed.

Lemma async_get_root_invariant future :
  hoare invariant_with_session (async_get_root future)
    (λ _, invariant_with_session) (λ _, connection_invariant).
Proof.
  unfold async_get_root.
  eapply hoare_bind with (R := λ _, invariant_with_session).
  - eapply hoare_conseq; [apply get_invariant | by intros ? [? ?] | done | done].
  - intros resp.
    apply stable_hoare; [stable_with fail | done | by intros ? ? [? ?]].
Qed.

Lemma try_uuid_keeps_invariant uuid_future root_future :
  stable connection_invariant (try_uuid uuid_future root_future).
Proof.
  unfold try_uuid.
  apply stable_bind; [unfold CONNECT_WAIT_wait; stable_with fail | intros _].
  apply stable_bind; [stable_with fail | intros _].
  eapply hoare_bind with
    (R := λ probe st, match probe with
                      | Some _ => invariant_with_session st
                      | None => connection_invariant st
                      end).
  - eapply hoare_try with (E' := λ _, connection_invariant).
    + eapply hoare_bind; [apply async_get_uuid_invariant | intros uuid].
      eapply hoare_bind; [apply async_get_root_invariant | intros root].
      by apply hoare_ret.
    + intros e _.
      eapply hoare_bind with (R := λ _, connection_invariant);
        [fold_stable; stable_with fail | intros _].
      eapply hoare_bind with (R := λ _, connection_invariant);
        [fold_stable; stable_with fail | intros t].
      eapply hoare_bind with (R := λ _, connection_invariant);
        [fold_stable; stable_with fail | intros _].
      by apply hoare_ret.
    + done.
  - intros [[uuid root]|]; [|by apply hoare_ret].
    eapply hoare_conseq with (Q' := λ _, online_with_session)
      (E' := λ e st, invariant_with_session st ∨ online_with_session st);
      [ | intros st H; exact H | | ].
    + eapply hoare_bind with (R := λ _, invariant_with_session).
      { apply stable_hoare; [stable_with fail | done | by left]. }
      intros _.
      eapply hoare_bind with (R := λ _, invariant_with_session).
      { apply hoare_lift. intros st H. destruct (py_get _ _); [by left | done]. }
      intros info.
      eapply hoare_bind with (R := λ _, invariant_with_session).
      { apply hoare_lift. intros st H. destruct (py_subscript _ _); [by left | done]. }
      intros version.
      eapply hoare_bind with (R := λ _, invariant_with_session).
      { apply stable_hoare; [stable_with fail | done | by left]. }
      intros _.
      eapply hoare_bind with (R := λ _, online_with_session).
      { apply hoare_modify. intros st [_ Hs]. by split. }
      intros _.
      apply stable_hoare;
        [unfold online_with_session; stable_with fail | done | by right].
    + intros _ st [Hon Hs]. split; [by intros _ | by intros _].
    + intros e st [[H _] | [Hon Hs]]; [done|].
      split; [by intros _ | by intros _].
Qed.

Lemma stop_connection_flag_and_stream (b : bool) :
  stable (λ st, IS_ONLINE st = b ∧ stream_only_online st) stop_connection.
Proof. unfold stop_connection. stable_with fail. Qed.

Lemma stop_connection_clears_session st :
  HTTP_SESSION (stop_connection st).2 = None.
Proof.
  unfold stop_connection. rewrite bind_run.
  match goal with
  | |- context [match ?m st with _ => _ end] =>
      assert (∃ st1, m st = (inr tt, st1)) as [st1 ->]
  end.
  { run. destruct (FUT_UUID st) as [u|]; simpl; [|by eexists].
    destruct (is_pending _ u); simpl; by eexists. }
  rewrite bind_run.
  match goal with
  | |- context [match ?m st1 with _ => _ end] =>
      assert (∃ st2, m st1 = (inr tt, st2)) as [st2 ->]
  end.
  { run. destruct (FUT_SSE st1) as [s|]; simpl; [|by eexists].
    destruct (is_pending _ s); simpl; by eexists. }
  run. by destruct (HTTP_SESSION st2) eqn:Hs.
Qed.

Lemma start_connection_flag_and_stream (b : bool) cfg ca_cert cert_verify :
  stable (λ st, IS_ONLINE st = b ∧ stream_only_online st)
    (start_connection cfg ca_cert cert_verify).
Proof. unfold start_connection, stop_connection, new_session. stable_with fail. Qed.
End invariant.

Section invariant_claim.
Import http_connection.

(** C8, as amended.  From a state in which the invariant holds: a
    handshake attempt, however it ends, leaves it holding, and so does
    the offline transition.  Stopping the connection clears the session
    handle and leaves the online flag as it was, and so keeps only the
    half of the invariant that speaks of the stream handle; starting the
    connection, which stops it first, keeps the flag and that half too. *)
Theorem invariant_kept_by_handshake_and_offline (st : State) :
  connection_invariant st →
  (∀ uuid_future root_future,
     connection_invariant (try_uuid uuid_future root_future st).2) ∧
  (∀ log_msg, connection_invariant (set_offline log_msg st).2) ∧
  (IS_ONLINE (stop_connection st).2 = IS_ONLINE st ∧
   HTTP_SESSION (stop_connection st).2 = None ∧
   stream_only_online (stop_connection st).2) ∧
  (∀ cfg ca_cert cert_verify,
     IS_ONLINE (start_connection cfg ca_cert cert_verify st).2 = IS_ONLINE st ∧
     stream_only_online (start_connection cfg ca_cert cert_verify st).2).
Proof.
  intros Hinv. repeat split.
  - pose proof (try_uuid_keeps_invariant uuid_future root_future st Hinv) as H.
    destruct (try_uuid _ _ st) as [[e|[]] st']; apply H.
  - pose proof (try_uuid_keeps_invariant uuid_future root_future st Hinv) as H.
    destruct (try_uuid _ _ st) as [[e|[]] st']; apply H.
  - by apply set_offline_keeps_invariant.
  - by apply set_offline_keeps_invariant.
  - pose proof (stop_connection_flag_and_stream (IS_ONLINE st) st
                  (conj eq_refl (proj2 Hinv))) as H.
    destruct (stop_connection st) as [[e|[]] st']; apply H.
  - apply stop_connection_clears_session.
  - pose proof (stop_connection_flag_and_stream (IS_ONLINE st) st
                  (conj eq_refl (proj2 Hinv))) as H.
    destruct (stop_connection st) as [[e|[]] st']; apply H.
  - pose proof (start_connection_flag_and_stream (IS_ONLINE st) cfg ca_cert
                  cert_verify st (conj eq_refl (proj2 Hinv))) as H.
    destruct (start_connection _ _ _ st) as [[e|[]] st']; apply H.
  - pose proof (start_connection_flag_and_stream (IS_ONLINE st) cfg ca_cert
                  cert_verify st (conj eq_refl (proj2 Hinv))) as H.
    destruct (start_connection _ _ _ st) as [[e|[]] st']; apply H.
Qed.
End invariant_claim.

(** ** Sample runs *)

Section runs.
Import http_connection Samples.

(** [start_connection] on the freshly imported module, with a host and no
    certificate. *)
Example start_connection_run :
  start_connection (mkConnection "localhost" 8123 EmptyString EmptyString)
                   (inr EmptyString) (inr true) st_boot =
  (inr tt,
   mkState false false (Some prefix) (Some 0%nat) (mkWait 1 600 1)
           (Some 1%nat) None {[1%nat := Pending]} 2 ∅ false
           [ELog DEBUG "Start connection"; ELog DEBUG "Loaded connection config";
            ELog DEBUG "HTTP session created"; ENewSession 0 None;
            ESchedule Co_try_uuid 1]).
Proof. reflexivity. Qed.

(** A probe answered 503: offline, and the next attempt scheduled. *)
Example try_uuid_unavailable_run :
  let r := try_uuid (inr resp_unavailable) (inr resp_root_nested) st_started in
  r.1 = inr tt ∧ IS_ONLINE r.2 = false ∧ FUT_UUID r.2 = Some 2%nat ∧
  trace r.2 =
    [ESleep 1; ELog DEBUG "Trying to connect to Homeassistant ...";
     ERequest METH_GET "ws://localhost:8123/rest/uuid/" None None None;
     ELog INFO "... offline!"; ESchedule Co_try_uuid 2].
Proof. vm_compute. done. Qed.

(** A probe that goes through: online, stream task started, callback
    called. *)
Example try_uuid_online_run :
  let r := try_uuid (inr resp_uuid) (inr resp_root_nested) st_started in
  r.1 = inr tt ∧ IS_ONLINE r.2 = true ∧ FUT_SSE r.2 = Some 2%nat ∧
  trace r.2 =
    [ESleep 1; ELog DEBUG "Trying to connect to Homeassistant ...";
     ERequest METH_GET "ws://localhost:8123/rest/uuid/" None None None;
     ERequest METH_GET "ws://localhost:8123/rest//" None None None;
     ELog INFO "Connected to Homeassistant instance 0c7a2a1e-4f0b-4a57-9a59-5f1f3f6f2b11";
     ELogVersion (JStr "2021.1");
     ESchedule Co_start_sse_event_listener 2; EOnConnected].
Proof. vm_compute. done. Qed.

(** The listener over a value update, a body that is not JSON and a frame
    of unknown type, then cancelled: the item is set and the event posted,
    the second frame leaves no mark, the third is reported. *)
Example sse_event_listener_run :
  let r := connection.sse_event_listener load_json event_lookup
             ["lamp frame"; "<html>"; "unknown frame"] (Some CancelledError) st_online in
  r.1 = inr tt ∧ Items r.2 !! "Lamp" = Some (JStr "ON") ∧ IS_ONLINE r.2 = true ∧
  trace r.2 =
    [ERequest METH_GET (events_url (Some prefix)) None None None;
     ESetValue "Lamp" (JStr "ON");
     EPostEvent "Lamp" lamp_event;
     ELogException (ValueError (UnknownEvent "X" unknown_frame))].
Proof. vm_compute. done. Qed.

(** The listener losing its connection: the offline transition. *)
Example sse_event_listener_disconnect_run :
  let r := connection.sse_event_listener load_json event_lookup
             ["lamp frame"] (Some ConnectionError) st_online in
  r.1 = inr tt ∧ IS_ONLINE r.2 = false ∧ FUT_SSE r.2 = None ∧ FUT_UUID r.2 = Some 3%nat ∧
  trace r.2 =
    [ERequest METH_GET (events_url (Some prefix)) None None None;
     ESetValue "Lamp" (JStr "ON");
     EPostEvent "Lamp" lamp_event;
     ELog WARNING "Disconnected! ConnectionError";
     ECancel 2; EOnDisconnected; ESchedule Co_try_uuid 3;
     ELog WARNING "SSE request Error: ConnectionError";
     ELogException ConnectionError].
Proof. vm_compute. done. Qed.

Example replace_run :
  replace "ab" "X" "aabcabab" = "aXcXX" ∧ replace EmptyString "-" "abc" = "-a-b-c-" ∧
  replace map_events.NONE_token "null" map_events.NONE_token = "null".
Proof. vm_compute. done. Qed.
End runs.

(** ** Witnesses *)

Section witnesses.
Import http_connection Samples.

Lemma mutating_not_set_up_witness :
  HTTP_PREFIX st_boot = None ∧
  post "items/Lamp" true None (Some (JStr "ON")) (inr resp_uuid) st_boot =
    (inl HomeassistantConnectionNotSetUpError, st_boot).
Proof.
  split; [reflexivity|].
  exact (proj1 (mutating_not_set_up "items/Lamp" true None (Some (JStr "ON"))
                  (inr resp_uuid) st_boot eq_refl)).
Defined.

Lemma read_only_offline_no_op_witness :
  HTTP_PREFIX st_read_only = Some prefix ∧
  IS_READ_ONLY st_read_only = true ∧
  post "items/Lamp" true None (Some (JStr "ON")) (inr resp_uuid) st_read_only =
    (inr None, st_read_only).
Proof.
  split; [reflexivity|]. split; [reflexivity|].
  exact (proj1 (proj1 (read_only_offline_no_op "items/Lamp" true false None
                         (Some (JStr "ON")) (inr resp_uuid) st_read_only prefix
                         eq_refl)
                  (or_introl eq_refl))).
Defined.

Lemma set_offline_witness :
  IS_ONLINE st_online = true ∧
  FUT_UUID st_online = Some 1%nat ∧
  FUT_SSE st_online ≠ Some 1%nat ∧
  ∃ st', set_offline "Status 503" st_online = (inr tt, st') ∧ IS_ONLINE st' = false.
Proof.
  split; [reflexivity|]. split; [reflexivity|]. split; [discriminate|].
  destruct (proj2 (set_offline_idempotent_restart "Status 503" st_online) 1%nat
              eq_refl eq_refl ltac:(discriminate)) as (st' & Hrun & Hoff & _).
  exists st'. split; [exact Hrun | exact Hoff].
Defined.

Lemma set_offline_unset_handle_witness :
  IS_ONLINE st_stopped = true ∧ FUT_UUID st_stopped = None ∧
  (set_offline "Status 503" st_stopped).1 = inl AttributeError ∧
  trace (set_offline "Status 503" st_stopped).2 =
    trace st_stopped ++ [ELog WARNING "Disconnected! Status 503"; EOnDisconnected].
Proof.
  destruct (set_offline_unset_handle "Status 503" st_stopped eq_refl eq_refl)
    as (Hraise & _ & _ & _ & Htrace & _).
  split; [reflexivity|]. split; [reflexivity|].
  split; [exact Hraise | exact Htrace].
Defined.

Lemma check_response_status_witness :
  handshake_tracked st_online ∧
  500 ≤ status resp_unavailable ∧
  (check_response (inr resp_unavailable) None true false st_online).1 =
    inl HomeassistantNotReadyYet ∧
  IS_ONLINE (check_response (inr resp_unavailable) None true false st_online).2 = false.
Proof.
  assert (Htracked : handshake_tracked st_online) by (intros _; by eexists).
  assert (H500 : 500 ≤ status resp_unavailable) by (simpl; lia).
  destruct (proj1 (check_response_status resp_unavailable None true false st_online)
              Htracked H500) as [Hrun Hoff].
  split; [exact Htracked|]. split; [exact H500|].
  split; [by rewrite Hrun | exact Hoff].
Defined.

Lemma try_uuid_root_404_witness :
  HTTP_PREFIX st_started = Some prefix ∧
  HTTP_SESSION st_started = Some 0%nat ∧
  status resp_uuid < 300 ∧
  status resp_root_404 = 404 ∧
  ∃ st', try_uuid (inr resp_uuid) (inr resp_root_404) st_started = (inl TypeError, st') ∧
         IS_ONLINE st' = false.
Proof.
  assert (Hlt : status resp_uuid < 300) by (simpl; lia).
  destruct (try_uuid_root_404 st_started prefix 0%nat resp_uuid resp_root_404 _
              eq_refl eq_refl Hlt eq_refl eq_refl) as (st' & Hrun & Hon & _).
  split; [reflexivity|]. split; [reflexivity|]. split; [exact Hlt|].
  split; [reflexivity|]. exists st'. split; [exact Hrun | exact Hon].
Defined.

Lemma undecodable_frame_dropped_witness :
  load_json "<html>" = inl Malformed ∧
  sse_loop load_json (connection.on_sse_event load_json event_lookup)
    (["lamp frame"] ++ "<html>" :: ["unknown frame"]) st_online =
  sse_loop load_json (connection.on_sse_event load_json event_lookup)
    (["lamp frame"] ++ ["unknown frame"]) st_online.
Proof.
  split; [reflexivity|].
  exact (proj1 (proj2 (undecodable_frame_dropped load_json
                         (connection.on_sse_event load_json event_lookup)
                         "<html>" Malformed ["lamp frame"] ["unknown frame"] None
                         st_online eq_refl))).
Defined.

Lemma value_update_before_post_witness :
  map_events.get_event load_json event_lookup lamp_frame = inr lamp_event ∧
  kind lamp_event = ValueUpdateEvent (JStr "ON") ∧
  connection.on_sse_event load_json event_lookup lamp_frame st_online =
    (inr tt,
     set_Items (<["Lamp" := JStr "ON"]> (Items st_online))
       (set_trace (trace st_online ++
                   [ESetValue "Lamp" (JStr "ON"); EPostEvent "Lamp" lamp_event])
                  st_online)).
Proof.
  assert (Hev : map_events.get_event load_json event_lookup lamp_frame = inr lamp_event)
    by reflexivity.
  split; [exact Hev|]. split; [reflexivity|].
  refine (proj1 (value_update_before_post load_json event_lookup lamp_frame lamp_event
                   (JStr "ON") st_online Hev eq_refl) _).
  by eexists.
Defined.

Lemma unknown_event_witness :
  py_subscript unknown_frame "type" = inr (JStr "X") ∧
  map_events.load_payload load_json (JStr map_events.NONE_token) = inr JNull ∧
  map_events.__event_lookup !! "X" = None ∧
  map_events.get_event load_json map_events.__event_lookup unknown_frame =
    inl (ValueError (UnknownEvent "X" unknown_frame)).
Proof.
  split; [reflexivity|]. split; [reflexivity|]. split; [reflexivity|].
  exact (proj1 (unknown_event_raised_and_isolated load_json map_events.__event_lookup
                  unknown_frame "X" (JStr "t") JNull map_events.NONE_token st_online
                  eq_refl eq_refl eq_refl eq_refl eq_refl)).
Defined.

Lemma invariant_witness :
  connection_invariant st_online ∧
  connection_invariant (set_offline "Status 503" st_online).2.
Proof.
  assert (Hinv : connection_invariant st_online).
  { split; intros _; [by eexists | reflexivity]. }
  split; [exact Hinv|].
  exact (proj1 (proj2 (invariant_kept_by_handshake_and_offline st_online Hinv))
           "Status 503").
Defined.
End witnesses.

(** * Where the code departs from the claims *)

Section counterexamples.
Import http_connection Samples.

(** C8 as stated fails at [stop_connection]: stopping an online connection
    closes and clears the session and leaves the flag online. *)
Lemma stop_connection_breaks_invariant :
  connection_invariant st_online ∧
  IS_ONLINE (stop_connection st_online).2 = true ∧
  HTTP_SESSION (stop_connection st_online).2 = None ∧
  ¬ connection_invariant (stop_connection st_online).2.
Proof.
  split; [split; intros _; [by eexists | reflexivity]|].
  split; [reflexivity|]. split; [reflexivity|].
  intros [Hsession _]. destruct (Hsession eq_refl) as [s Hs]. discriminate Hs.
Qed.

(** C9 as stated fails on the second attempt of a run: from the floor of
    one, a failed attempt and then a successful one leave the interval at
    four, not reset, and four is what the reconnect after a disconnect
    will sleep. *)
Lemma backoff_not_reset_after_success :
  let st1 := (try_uuid (inr resp_unavailable) (inr resp_root_nested) st_started).2 in
  let st2 := (try_uuid (inr resp_uuid) (inr resp_root_nested) st1).2 in
  let st3 := (set_offline "Status 503" st2).2 in
  IS_ONLINE st1 = false ∧
  (try_uuid (inr resp_uuid) (inr resp_root_nested) st1).1 = inr tt ∧
  IS_ONLINE st2 = true ∧
  wait_floor (CONNECT_WAIT st2) = 1%N ∧
  lastWaitDuration (CONNECT_WAIT st2) = 4%N ∧
  lastWaitDuration (CONNECT_WAIT st2) ≠ wait_floor (CONNECT_WAIT st2) ∧
  CONNECT_WAIT st2 ≠ wait_reset (CONNECT_WAIT st2) ∧
  IS_ONLINE st3 = false ∧
  lastWaitDuration (CONNECT_WAIT st3) = 4%N.
Proof. vm_compute. repeat split; discriminate. Qed.
End counterexamples.

(** * Further properties of the code *)

#[local] Hint Unfold emitted_only : state_props.

Lemma emitted_only_emit ok t st e :
  ok e = true → emitted_only ok t st →
  emitted_only ok t (set_trace (trace st ++ [e]) st).
Proof.
  intros He (new & Ht & Hok). exists (new ++ [e]). simpl. split.
  - by rewrite Ht, app_assoc.
  - rewrite forallb_app, Hok. simpl. by rewrite He.
Qed.

Lemma emitted_only_refl ok st : emitted_only ok (trace st) st.
Proof. exists []. by rewrite app_nil_r. Qed.

Lemma emitted_only_weaken (ok ok' : effect → bool) t st :
  (∀ e, ok e = true → ok' e = true) → emitted_only ok t st → emitted_only ok' t st.
Proof.
  intros Hw (new & Ht & Hok). exists new. split; [done|].
  apply forallb_forall. intros e He.
  apply Hw. by eapply forallb_forall in Hok.
Qed.

Lemma emitted_only_trans ok t st st' :
  emitted_only ok t st → emitted_only ok (trace st) st' → emitted_only ok t st'.
Proof.
  intros (n1 & H1 & Hok1) (n2 & H2 & Hok2). exists (n1 ++ n2). split.
  - by rewrite H2, H1, app_assoc.
  - by rewrite forallb_app, Hok1, Hok2.
Qed.

Lemma count_app p t1 t2 : count p (t1 ++ t2) = (count p t1 + count p t2)%nat.
Proof. induction t1 as [|e t1 IH]; simpl; [done|]. rewrite IH. lia. Qed.

Lemma count_none p t : forallb (λ e, negb (p e)) t = true → count p t = 0%nat.
Proof.
  induction t as [|e t IH]; simpl; [done|].
  intros [He Ht]%andb_prop. rewrite IH by done. by destruct (p e).
Qed.

(** A [stable] proof for [emitted_only]: every emitted effect is checked
    against [ok] by evaluation. *)
Ltac emits :=
  stable_with ltac:(apply stable_modify; intros ? ?; apply emitted_only_emit;
                    [reflexivity | assumption]).

Section request_count.
Import http_connection.

(** Nothing that [check_response] does is a request. *)
Lemma check_response_no_request t future sent_data log_404 disconnect_on_error :
  stable (emitted_only (λ e, negb (is_ERequest e)) t)
    (check_response future sent_data log_404 disconnect_on_error).
Proof. unfold check_response, is_disconnect_exception, set_offline. emits. Qed.

Lemma after_request_count (st' : State) (t : list effect) (r : effect) :
  is_ERequest r = true →
  emitted_only (λ e, negb (is_ERequest e)) (t ++ [r]) st' →
  ∃ new, trace st' = t ++ new ∧ count is_ERequest new = 1%nat.
Proof.
  intros Hr (new & Ht & Hok). exists (r :: new). split.
  - by rewrite Ht, <- app_assoc.
  - simpl. rewrite Hr, (count_none _ _ Hok). done.
Qed.

(** [get] makes exactly one request when the prefix and the session are
    set and the URL does not start with a slash; in every other case it
    raises, in this order of precedence, the not-set-up error, an
    [AssertionError] or an [AttributeError], and leaves the state as it
    found it. *)
Theorem get_one_request_or_none (url : string) (log_404 disconnect_on_error : bool)
    (future : exn + ClientResponse) (st : State) :
  let r := get url log_404 disconnect_on_error future st in
  (get_passes url st = true →
     ∃ new, trace r.2 = trace st ++ new ∧ count is_ERequest new = 1%nat) ∧
  (get_passes url st = false →
     r.2 = st ∧
     r.1 = inl (if bool_decide (HTTP_PREFIX st = None)
                then HomeassistantConnectionNotSetUpError
                else if startswith "/" url then AssertionError else AttributeError)).
Proof.
  unfold get_passes, get. run.
  destruct (HTTP_PREFIX st) as [p|] eqn:Hp; simpl; [|by split].
  destruct (startswith "/" url) eqn:Hurl; simpl; [by split|].
  destruct (HTTP_SESSION st) as [s|] eqn:Hs; simpl; [|by split].
  split; [intros _ | done].
  match goal with
  | |- context [check_response ?f ?d ?l ?e ?st1] =>
      pose proof (check_response_no_request (trace st1) f d l e st1
                    (emitted_only_refl _ st1)) as H
  end.
  destruct (check_response _ _ _ _ _) as [[e|a] st']; simpl in *;
    (eapply after_request_count; [|exact H]; reflexivity).
Qed.

(** [post], [put] and [delete] make exactly one request when [get] would
    and the connection is online and not read-only, and no request
    otherwise. *)
Theorem mutating_one_request_or_none (url : string) (log_404 : bool)
    (json_arg data : option json) (future : exn + ClientResponse) (st : State) :
  let n := if mutating_passes url st then 1%nat else 0%nat in
  (∃ new, trace (post url log_404 json_arg data future st).2 = trace st ++ new ∧
          count is_ERequest new = n) ∧
  (∃ new, trace (put url log_404 json_arg data future st).2 = trace st ++ new ∧
          count is_ERequest new = n) ∧
  (∃ new, trace (delete url log_404 json_arg data future st).2 = trace st ++ new ∧
          count is_ERequest new = n).
Proof.
  assert (Hnone : ∃ new : list effect, trace st = trace st ++ new ∧
                    count is_ERequest new = 0%nat)
    by (exists []; by rewrite app_nil_r).
  unfold mutating_passes, get_passes, post, put, delete. run.
  destruct (HTTP_PREFIX st) as [p|] eqn:Hp; simpl; [|done].
  destruct (IS_READ_ONLY st) eqn:Hro; simpl; [by rewrite !andb_false_r|].
  destruct (IS_ONLINE st) eqn:Hon; simpl; [|by rewrite !andb_false_r].
  destruct (startswith "/" url) eqn:Hurl; simpl; [done|].
  destruct (HTTP_SESSION st) as [s|] eqn:Hs; simpl; [|done].
  repeat split.
  all: match goal with
       | |- context [check_response ?f ?d ?l ?e ?st1] =>
           pose proof (check_response_no_request (trace st1) f d l e st1
                         (emitted_only_refl _ st1)) as H
       end.
  all: destruct (check_response _ _ _ _ _) as [[e|a] st']; simpl in *;
         (eapply after_request_count; [|exact H]; reflexivity).
Qed.
End request_count.

(** ** Exceptions of a request *)

Section request_exceptions.
Import http_connection.

(** What awaiting a request raises is sorted into three: a transport error
    of the disconnect classes runs the offline transition, is logged as a
    warning and comes out as [HomeassistantDisconnectedError]; any other
    [Exception] is logged as an error and raised again as it is; a
    cancellation passes through with nothing logged and the state
    untouched. *)
Theorem check_response_exception (e : exn) (sent_data : option json)
    (log_404 disconnect_on_error : bool) (st : State) :
  let r := check_response (inl e) sent_data log_404 disconnect_on_error st in
  (is_Exception e = false → r = (inl e, st)) ∧
  (is_Exception e = true → is_disconnect_class e = false →
     r = (inl e, set_trace (trace st ++ [ELog ERROR (exn_str e)]) st)) ∧
  (is_disconnect_class e = true → handshake_tracked st →
     r = (inl HomeassistantDisconnectedError,
          set_trace (trace (set_offline (exn_str e) st).2 ++ [ELog WARNING (exn_str e)])
                    (set_offline (exn_str e) st).2) ∧
     IS_ONLINE r.2 = false).
Proof.
  unfold check_response, is_disconnect_exception.
  rewrite bind_run. unfold try_except, lift, raise. simpl.
  split; [|split].
  - by intros ->.
  - intros -> ->. simpl. by run.
  - intros Hd Htracked.
    assert (is_Exception e = true) as -> by (by destruct e).
    rewrite Hd. simpl. rewrite !bind_run.
    pose proof (set_offline_returns (exn_str e) st Htracked) as [Hr Hoff].
    destruct (set_offline _ st) as [r0 st']. simpl in Hr, Hoff. subst r0.
    by run.
Qed.
End request_exceptions.

(** ** Dispatch of frames *)

#[local] Hint Unfold connection_part : state_props.

Section dispatch_loop.
Import map_events connection.
Context (load_json : string → decode_failure + json).
Context (event_lookup : gmap string EventClass).
Hypothesis Hclasses : raises_only_exceptions event_lookup.

Local Abbreviation get_event := (map_events.get_event load_json event_lookup).
Local Abbreviation on_sse_event := (connection.on_sse_event load_json event_lookup).

Lemma get_event_not_cancelled event_dict :
  get_event event_dict ≠ inl CancelledError.
Proof.
  unfold map_events.get_event.
  destruct (py_subscript event_dict "type") as [e1|event_type] eqn:H1.
  { unfold py_subscript in H1. destruct event_dict; try (by inversion H1).
    destruct (json_lookup _ _); by inversion H1. }
  destruct (py_subscript event_dict "topic") as [e2|topic] eqn:H2.
  { unfold py_subscript in H2. destruct event_dict; try (by inversion H2).
    destruct (json_lookup _ _); by inversion H2. }
  destruct (py_subscript event_dict "payload") as [e3|p_str] eqn:H3.
  { unfold py_subscript in H3. destruct event_dict; try (by inversion H3).
    destruct (json_lookup _ _); by inversion H3. }
  destruct (load_payload load_json p_str) as [e4|payload] eqn:H4.
  { unfold load_payload, py_load_json in H4. destruct p_str; try (by inversion H4).
    - destruct (load_json _) as [[]|]; by inversion H4.
    - destruct (existsb _ _); by inversion H4.
    - destruct (bool_decide _); by inversion H4. }
  unfold construct. destruct event_type; try done.
  destruct (event_lookup !! s) as [cls|] eqn:Hcls; [|done].
  pose proof (Hclasses s cls topic payload Hcls) as Hne.
  destruct (from_dict cls topic payload) as [[]|]; done.
Qed.

Lemma on_sse_event_returns event_dict st : (on_sse_event event_dict st).1 = inr tt.
Proof.
  pose proof (get_event_not_cancelled event_dict) as Hne.
  unfold connection.on_sse_event, ignore_exception, on_sse_event__wrapped.
  unfold Items_get_item, set_value, post_event. run.
  destruct (get_event event_dict) as [e|event]; simpl.
  - by destruct e.
  - destruct (kind event); simpl; [|done].
    by destruct (Items st !! name event).
Qed.

Lemma on_sse_event_footprint event_dict c t :
  stable (λ x, connection_part x = c ∧ emitted_only is_dispatch_effect t x)
    (on_sse_event event_dict).
Proof.
  unfold connection.on_sse_event, ignore_exception, on_sse_event__wrapped.
  unfold Items_get_item, set_value, post_event.
  stable_with ltac:(apply stable_modify; intros ? [? ?]; split;
                    [done | apply emitted_only_emit; [reflexivity | assumption]]).
Qed.

Lemma sse_frame_dispatch data st :
  let r := http_connection.sse_frame load_json on_sse_event data st in
  r.1 = inr tt ∧ connection_part r.2 = connection_part st ∧
  emitted_only is_dispatch_effect (trace st) r.2.
Proof.
  destruct (load_json data) as [failure|event] eqn:Hdata; simpl.
  - rewrite (sse_frame_undecodable _ _ _ _ _ Hdata). simpl.
    split; [done|]. split; [done | apply emitted_only_refl].
  - rewrite (sse_frame_decoded _ _ _ _ _ Hdata).
    set (st1 := if log_events_debug st then _ else st).
    assert (H1 : connection_part st1 = connection_part st ∧
                 emitted_only is_dispatch_effect (trace st) st1).
    { subst st1. destruct (log_events_debug st) eqn:Hdbg.
      - split; [unfold connection_part; simpl; by rewrite Hdbg|].
        apply emitted_only_emit; [done | apply emitted_only_refl].
      - split; [done | apply emitted_only_refl]. }
    pose proof (on_sse_event_returns event st1) as Hr.
    pose proof (on_sse_event_footprint event _ _ st1 H1) as Hf.
    destruct (on_sse_event event st1) as [[e|[]] st2]; simpl in *; [done|].
    by destruct Hf.
Qed.

Lemma sse_loop_dispatch (frames : list string) (st : State) :
  let r := http_connection.sse_loop load_json on_sse_event frames st in
  r.1 = inr tt ∧ connection_part r.2 = connection_part st ∧
  emitted_only is_dispatch_effect (trace st) r.2.
Proof.
  revert st. induction frames as [|data frames IH]; intros st; simpl.
  - split; [done|]. split; [done | apply emitted_only_refl].
  - rewrite bind_run.
    pose proof (sse_frame_dispatch data st) as (Hr & Hc & He).
    destruct (http_connection.sse_frame _ _ data st) as [[e|[]] st1];
      simpl in *; [done|].
    destruct (IH st1) as (Hr' & Hc' & He').
    split; [done|]. split; [congruence|]. by eapply emitted_only_trans.
Qed.

(** With the handler that [setup] installs, no frame ends the loop: for
    every sequence of frames, whatever they hold, the loop returns; it
    leaves every field of the connection as it was, and all it has done
    to the outside is log, set item values and post events.  Frames are
    handled in the order of their arrival: the loop over a longer stream
    is the loop over its first part followed by the loop over the rest. *)
Theorem dispatch_never_stops_the_stream (frames more : list string) (st : State) :
  let r := http_connection.sse_loop load_json on_sse_event frames st in
  r.1 = inr tt ∧ connection_part r.2 = connection_part st ∧
  emitted_only is_dispatch_effect (trace st) r.2 ∧
  http_connection.sse_loop load_json on_sse_event (frames ++ more) st =
    http_connection.sse_loop load_json on_sse_event more r.2.
Proof.
  pose proof (sse_loop_dispatch frames st) as (Hr & Hc & He).
  split; [done|]. split; [done|]. split; [done|].
  clear Hc He. revert st Hr.
  induction frames as [|data frames IH]; intros st Hr; [done|].
  rewrite <- app_comm_cons, !sse_loop_cons in *.
  pose proof (sse_frame_dispatch data st) as (Hf & _).
  destruct (http_connection.sse_frame _ _ data st) as [[e|[]] st1];
    simpl in *; [done|].
  by apply IH.
Qed.
End dispatch_loop.

(** ** Stopping and starting the connection *)

#[local] Hint Unfold untouched_by_stop : state_props.

Section lifecycle.
Import http_connection.

Lemma is_pending_cancel futs f g :
  is_pending futs g = false → is_pending (<[f := Cancelled]> futs) g = false.
Proof.
  unfold is_pending. rewrite lookup_insert. by case_decide.
Qed.

Lemma stop_connection_settled_noop st :
  handles_settled st → HTTP_SESSION st = None → stop_connection st = (inr tt, st).
Proof.
  intros [Hu Hs] Hsession. unfold stop_connection. run.
  destruct (FUT_UUID st) as [u|] eqn:Hfu; simpl.
  - rewrite (Hu u eq_refl). simpl.
    destruct (FUT_SSE st) as [f|] eqn:Hfs; simpl.
    + rewrite (Hs f eq_refl). simpl. by rewrite Hsession.
    + by rewrite Hsession.
  - destruct (FUT_SSE st) as [f|] eqn:Hfs; simpl.
    + rewrite (Hs f eq_refl). simpl. by rewrite Hsession.
    + by rewrite Hsession.
Qed.

Lemma stop_connection_handles st :
  (stop_connection st).1 = inr tt ∧ handles_settled (stop_connection st).2.
Proof.
  unfold stop_connection, handles_settled. run.
  destruct (FUT_UUID st) as [u|] eqn:Hfu;
    [destruct (is_pending (futures st) u) eqn:Hpu|];
    destruct (FUT_SSE st) as [f|] eqn:Hfs; simp_state;
    try match goal with
        | |- context [is_pending ?m f] => destruct (is_pending m f) eqn:Hpf; simp_state
        end;
    destruct (HTTP_SESSION st) as [s|] eqn:Hsession; simp_state;
    (split; [done|]); split; intros g Hg; simplify_eq;
    first [done | by apply is_pending_cancel].
Qed.

Lemma stop_connection_footprint t c :
  stable (λ x, emitted_only is_teardown_effect t x ∧ untouched_by_stop x = c)
    stop_connection.
Proof.
  unfold stop_connection.
  stable_with ltac:(apply stable_modify; intros ? [? ?]; split;
                    [apply emitted_only_emit; [reflexivity | assumption] | done]).
Qed.

(** [stop_connection] always returns.  It leaves no session, and in
    neither handle a future that is still pending; the flags, the backoff
    timer and the item registry are as before; towards the outside it has
    only cancelled tasks and closed the session: no callback, no log, no
    reconnect.  Stopping a stopped connection does nothing at all. *)
Theorem stop_connection_settles (st : State) :
  let r := stop_connection st in
  r.1 = inr tt ∧
  HTTP_SESSION r.2 = None ∧
  handles_settled r.2 ∧
  untouched_by_stop r.2 = untouched_by_stop st ∧
  emitted_only is_teardown_effect (trace st) r.2 ∧
  stop_connection r.2 = (inr tt, r.2).
Proof.
  pose proof (stop_connection_handles st) as [Hr Hh].
  pose proof (stop_connection_clears_session st) as Hs.
  pose proof (stop_connection_footprint (trace st) (untouched_by_stop st) st
                (conj (emitted_only_refl _ st) eq_refl)) as Hf.
  destruct (stop_connection st) as [[e|[]] st'] eqn:Hrun; simpl in *; [done|].
  destruct Hf as [He Hc].
  repeat split; try done; try apply Hh.
  by apply stop_connection_settled_noop.
Qed.

Lemma stop_connection_next_handle st :
  next_handle (stop_connection st).2 = next_handle st.
Proof.
  assert (H : stable (λ x, next_handle x = next_handle st) stop_connection).
  { unfold stop_connection. stable_with fail. }
  specialize (H st eq_refl).
  by destruct (stop_connection st) as [[e|[]] st'].
Qed.

(** [start_connection] is: log, stop, then, from the stopped state
    [stopped], one of three.  If reading the configuration raises, that is
    all: the exception comes out of the stopped connection.  With an empty
    host the prefix is cleared, no session is opened and no handshake
    scheduled, so that [get] raises the not-set-up error.  With a host,
    the prefix is set, one fresh session replaces the closed one and one
    handshake is scheduled, pending in [FUT_UUID]; the online flag is not
    written. *)
Theorem start_connection_restart (cfg : Connection) (ca_cert_read : exn + string)
    (cert_verify_read : exn + bool) (st : State) :
  let stopped :=
    (stop_connection (set_trace (trace st ++ [ELog DEBUG "Start connection"]) st)).2 in
  let r := start_connection cfg ca_cert_read cert_verify_read st in
  (∀ e, ca_cert_read = inl e → r = (inl e, stopped)) ∧
  (∀ c v url log_404 disconnect_on_error future,
     ca_cert_read = inr c → cert_verify_read = inr v → host cfg = EmptyString →
     r = (inr tt,
          set_HTTP_PREFIX None
            (set_trace (trace stopped ++ [ELog DEBUG "Loaded connection config"]) stopped)) ∧
     (get url log_404 disconnect_on_error future r.2).1 =
       inl HomeassistantConnectionNotSetUpError) ∧
  (∀ c v,
     ca_cert_read = inr c → cert_verify_read = inr v → host cfg ≠ EmptyString →
     r.1 = inr tt ∧
     HTTP_PREFIX r.2 = Some (connection_prefix cfg c) ∧
     HTTP_SESSION r.2 = Some (next_handle st) ∧
     FUT_UUID r.2 = Some (S (next_handle st)) ∧
     futures r.2 !! S (next_handle st) = Some Pending ∧
     IS_ONLINE r.2 = IS_ONLINE st ∧
     trace r.2 =
       trace stopped ++
       [ELog DEBUG "Loaded connection config"; ELog DEBUG "HTTP session created";
        ENewSession (next_handle st) (connection_auth cfg);
        ESchedule Co_try_uuid (S (next_handle st))]).
Proof.
  intros stopped r. subst stopped r.
  pose proof (stop_connection_handles
                (set_trace (trace st ++ [ELog DEBUG "Start connection"]) st)) as [Hr _].
  pose proof (stop_connection_next_handle
                (set_trace (trace st ++ [ELog DEBUG "Start connection"]) st)) as Hn.
  pose proof (stop_connection_footprint _ _ _
                (conj (emitted_only_refl is_teardown_effect
                         (set_trace (trace st ++ [ELog DEBUG "Start connection"]) st))
                      eq_refl)) as Hf.
  unfold start_connection, new_session, get.
  destruct ca_cert_read as [e1|c1], cert_verify_read as [e2|v2],
    (String.eqb_spec (host cfg) EmptyString) as [Hhost|Hhost];
    run; simpl;
    destruct (stop_connection _) as [[e0|[]] st1]; simpl in Hr, Hn, Hf |- *;
    try done;
    destruct Hf as [_ Hc]; unfold untouched_by_stop in Hc; simplify_eq;
    (split; [|split]); intros; simplify_eq; try done.
  rewrite Hn. repeat split; try done.
  - by rewrite lookup_insert_eq.
  - by rewrite <- !app_assoc.
Qed.
End lifecycle.

(** ** How the listener ends *)

Lemma count_only ok p t :
  (∀ e, ok e = true → p e = false) → forallb ok t = true → count p t = 0%nat.
Proof.
  intros Hw Hok. apply count_none. apply forallb_forall. intros e He.
  eapply forallb_forall in Hok; [|exact He]. by rewrite (Hw e Hok).
Qed.

Lemma count_cancel_pending p futs fut :
  (∀ f, p (ECancel f) = false) → count p (cancel_pending futs fut) = 0%nat.
Proof.
  intros Hp. unfold cancel_pending. destruct fut as [f|]; [|done].
  destruct (is_pending futs f); simpl; [by rewrite Hp | done].
Qed.

Section offline_run.
Import http_connection.

(** The offline transition from an online state, with what it does to the
    outside counted. *)
Lemma set_offline_online log_msg st u :
  IS_ONLINE st = true → FUT_UUID st = Some u →
  ∃ st', set_offline log_msg st = (inr tt, st') ∧
    IS_ONLINE st' = false ∧ FUT_SSE st' = None ∧
    FUT_UUID st' = Some (next_handle st) ∧
    ∃ new, trace st' = trace st ++ new ∧
      count is_EOnDisconnected new = 1%nat ∧ count is_ESchedule new = 1%nat ∧
      count is_ERequest new = 0%nat ∧ count is_EOnConnected new = 0%nat.
Proof.
  intros Hon Hu.
  destruct (FUT_SSE st) as [s|] eqn:Hs;
    [destruct (is_pending (futures st) s) eqn:Hps|];
    unfold set_offline; run; simp_state;
    repeat match goal with
           | |- context [is_pending ?m u] => destruct (is_pending m u) eqn:?; simp_state
           end.
  all: eexists; (split; [reflexivity|]); simpl.
  all: do 3 (split; [done|]).
  all: eexists; split; [rewrite <- !app_assoc; reflexivity|]; done.
Qed.

(** The same transition where the handshake handle is unset: it stops at
    [FUT_UUID.done()], after the callback and before any scheduling. *)
Lemma set_offline_unset log_msg st :
  IS_ONLINE st = true → FUT_UUID st = None →
  ∃ st', set_offline log_msg st = (inl AttributeError, st') ∧
    IS_ONLINE st' = false ∧ FUT_SSE st' = None ∧ FUT_UUID st' = None ∧
    ∃ new, trace st' = trace st ++ new ∧
      count is_EOnDisconnected new = 1%nat ∧ count is_ESchedule new = 0%nat ∧
      count is_ERequest new = 0%nat ∧ count is_EOnConnected new = 0%nat.
Proof.
  intros Hon Hu.
  destruct (FUT_SSE st) as [s|] eqn:Hs;
    [destruct (is_pending (futures st) s) eqn:Hps|];
    unfold set_offline; run; simp_state.
  all: eexists; (split; [reflexivity|]); simpl.
  all: do 3 (split; [done|]).
  all: eexists; split; [rewrite <- !app_assoc; reflexivity|]; done.
Qed.
End offline_run.

Section listener_end.
Import map_events connection.
Context (load_json : string → decode_failure + json).
Context (event_lookup : gmap string EventClass).
Hypothesis Hclasses : raises_only_exceptions event_lookup.

Local Abbreviation listener := (connection.sse_event_listener load_json event_lookup).

Lemma listener_loop (frames : list string) (st : State) :
  ∃ st2 handled,
    http_connection.sse_loop load_json (connection.on_sse_event load_json event_lookup)
      frames
      (set_trace (trace st ++
                  [ERequest METH_GET (http_connection.events_url (HTTP_PREFIX st))
                            None None None]) st) = (inr tt, st2) ∧
    connection_part st2 = connection_part st ∧
    trace st2 =
      trace st ++
      ERequest METH_GET (http_connection.events_url (HTTP_PREFIX st)) None None None
        :: handled ∧
    forallb is_dispatch_effect handled = true.
Proof.
  set (st0 := set_trace _ st).
  pose proof (sse_loop_dispatch load_json event_lookup Hclasses frames st0)
    as (Hr & Hc & (handled & Ht & Hok)).
  destruct (http_connection.sse_loop _ _ frames st0) as [[e|[]] st2];
    simpl in *; [done|].
  exists st2, handled. split; [done|]. split; [done|]. split; [|done].
  by rewrite Ht, <- app_assoc.
Qed.

(** A stream that ends without an error, because the server closes it or
    because the task is cancelled, ends the listener quietly, however many
    frames came before: the connection is left exactly as it was, flag
    online included, and nothing but the subscription request and the
    handling of the frames has reached the outside: no callback, no
    reconnect. *)
Theorem listener_clean_end (frames : list string) (ending : option exn) (st : State) :
  ending = None ∨ ending = Some CancelledError →
  let r := listener frames ending st in
  r.1 = inr tt ∧ connection_part r.2 = connection_part st ∧
  emitted_only is_listener_effect (trace st) r.2.
Proof.
  intros Hend.
  destruct (listener_loop frames st) as (st2 & handled & Hloop & Hc & Ht & Hok).
  assert (He : emitted_only is_listener_effect (trace st) st2).
  { eexists. split; [exact Ht|]. simpl.
    apply forallb_forall. intros e He.
    eapply forallb_forall in Hok; [|exact He].
    unfold is_listener_effect. by rewrite Hok, orb_true_r. }
  unfold connection.sse_event_listener, http_connection.start_sse_event_listener.
  unfold try_except. rewrite !bind_run. simpl. rewrite !bind_run. simpl.
  rewrite !bind_run, Hloop.
  by destruct Hend as [-> | ->].
Qed.

(** A stream that ends with an error, of whatever class, while the
    connection is online takes it offline exactly once: the flag is
    offline, the stream handle is cleared, and since the listener started
    the subscription is the only request and [ON_DISCONNECTED] has been
    called once.  Where the handshake handle [FUT_UUID] is set, the
    listener returns and one handshake has been scheduled and stored in
    it.  Where the handle is unset, the offline transition fails on it:
    the listener raises [AttributeError], and no handshake has been
    scheduled. *)
Theorem listener_error_end (frames : list string) (e : exn) (st : State) :
  is_Exception e = true →
  IS_ONLINE st = true →
  let r := listener frames (Some e) st in
  IS_ONLINE r.2 = false ∧ FUT_SSE r.2 = None ∧
  (∃ new, trace r.2 = trace st ++ new ∧
     count is_EOnDisconnected new = 1%nat ∧ count is_ERequest new = 1%nat ∧
     count is_ESchedule new = match FUT_UUID st with Some _ => 1%nat | None => 0%nat end) ∧
  (is_Some (FUT_UUID st) → r.1 = inr tt ∧ FUT_UUID r.2 = Some (next_handle st)) ∧
  (FUT_UUID st = None → r.1 = inl AttributeError ∧ FUT_UUID r.2 = None).
Proof.
  intros He Hon.
  destruct (listener_loop frames st) as (st2 & handled & Hloop & Hc & Ht & Hok).
  unfold connection_part in Hc. simplify_eq.
  assert (Hd : count is_EOnDisconnected handled = 0%nat)
    by (eapply count_only; [|exact Hok]; by intros []).
  assert (Hs : count is_ESchedule handled = 0%nat)
    by (eapply count_only; [|exact Hok]; by intros []).
  assert (Hq : count is_ERequest handled = 0%nat)
    by (eapply count_only; [|exact Hok]; by intros []).
  unfold connection.sse_event_listener, http_connection.start_sse_event_listener.
  unfold try_except. rewrite !bind_run. simpl. rewrite !bind_run. simpl.
  rewrite !bind_run, Hloop. unfold raise. rewrite He. simpl.
  unfold http_connection.is_disconnect_exception.
  destruct (FUT_UUID st) as [u|] eqn:Hu.
  - destruct (is_disconnect_class e) eqn:Hclass; simpl.
    + destruct (set_offline_online (exn_str e) st2 u) as
        (st3 & Hrun & Hoff & Hsse & Hfut & new & Hnew & Hn1 & Hn2 & Hn3 & _);
        [congruence..|].
      rewrite !bind_run, Hrun. run. rewrite ?He. simpl.
      do 2 (split; [done|]). split; [|split; [intros _; split; congruence | done]].
      eexists. split.
      { rewrite Hnew, Ht, <- !app_assoc. simpl. reflexivity. }
      simpl. rewrite !count_app. simpl. rewrite Hd, Hs, Hq, Hn1, Hn2, Hn3. done.
    + run. rewrite ?He. simpl.
      set (st2' := set_trace _ (set_trace _ st2)).
      destruct (set_offline_online
                  ("Uncaught error in process_sse_events: " +:+ exn_str e) st2' u) as
        (st3 & Hrun & Hoff & Hsse & Hfut & new & Hnew & Hn1 & Hn2 & Hn3 & _);
        [subst st2'; simpl; congruence..|].
      rewrite Hrun. simpl.
      do 2 (split; [done|]).
      split; [|split; [intros _; split; [done | subst st2'; simpl in *; congruence]
                      | done]].
      eexists. split.
      { rewrite Hnew. subst st2'. simpl. rewrite Ht, <- !app_assoc. simpl. reflexivity. }
      simpl. rewrite !count_app. simpl. rewrite Hd, Hs, Hq, Hn1, Hn2, Hn3. done.
  - destruct (is_disconnect_class e) eqn:Hclass; simpl.
    + destruct (set_offline_unset (exn_str e) st2) as
        (st3 & Hrun & Hoff & Hsse & Hfut & new & Hnew & Hn1 & Hn2 & Hn3 & _);
        [congruence..|].
      rewrite !bind_run, Hrun. run. rewrite ?He. simpl.
      do 2 (split; [done|]).
      split; [|split; [by intros [? ?] | done]].
      eexists. split.
      { rewrite Hnew, Ht, <- !app_assoc. simpl. reflexivity. }
      simpl. rewrite !count_app. simpl. rewrite Hd, Hs, Hq, Hn1, Hn2, Hn3. done.
    + run. rewrite ?He. simpl.
      set (st2' := set_trace _ (set_trace _ st2)).
      destruct (set_offline_unset
                  ("Uncaught error in process_sse_events: " +:+ exn_str e) st2') as
        (st3 & Hrun & Hoff & Hsse & Hfut & new & Hnew & Hn1 & Hn2 & Hn3 & _);
        [subst st2'; simpl; congruence..|].
      rewrite Hrun. simpl.
      do 2 (split; [done|]).
      split; [|split; [by intros [? ?] | done]].
      eexists. split.
      { rewrite Hnew. subst st2'. simpl. rewrite Ht, <- !app_assoc. simpl. reflexivity. }
      simpl. rewrite !count_app. simpl. rewrite Hd, Hs, Hq, Hn1, Hn2, Hn3. done.
Qed.
End listener_end.

(** ** Handshake attempts *)

Section attempts.
Import http_connection.

Local Ltac retried :=
  simpl; rewrite ?lookup_insert_eq;
  repeat (split; [done|]); eexists;
  (split; [rewrite <- ?app_assoc; reflexivity|]); simpl; repeat split; lia.

(** An identity probe that fails while the connection is offline ends the
    attempt in one way only: [try_uuid] returns, the flag stays offline,
    the stream handle is as it was, and one retry is scheduled and stored,
    pending, in [FUT_UUID].  No callback is called, the root document is
    not requested, and this holds whether or not a prefix or a session is
    configured. *)
Theorem try_uuid_failed_probe_retries (uuid_future root_future : exn + ClientResponse)
    (st : State) :
  IS_ONLINE st = false →
  uuid_probe_fails uuid_future →
  let r := try_uuid uuid_future root_future st in
  r.1 = inr tt ∧ IS_ONLINE r.2 = false ∧ FUT_SSE r.2 = FUT_SSE st ∧
  FUT_UUID r.2 = Some (next_handle st) ∧
  futures r.2 !! next_handle st = Some Pending ∧
  ∃ new, trace r.2 = trace st ++ new ∧
    count is_ESchedule new = 1%nat ∧
    count is_EOnConnected new = 0%nat ∧ count is_EOnDisconnected new = 0%nat ∧
    (count is_ERequest new ≤ 1)%nat.
Proof.
  intros Hoff Hfail.
  unfold try_uuid, CONNECT_WAIT_wait, async_get_uuid, get, check_response,
    is_disconnect_exception, set_offline.
  destruct uuid_future as [e|resp]; simpl in Hfail; run; simp_state.
  - destruct (HTTP_PREFIX st) as [p|]; simpl;
      [destruct (HTTP_SESSION st) as [s|]; simpl|];
      repeat (progress (rewrite ?Hfail, ?Hoff; simpl));
      try (destruct (is_disconnect_class e); simpl;
           repeat (progress (rewrite ?Hfail, ?Hoff; simpl)));
      repeat match goal with
             | |- context [is_offline_class ?x] => destruct (is_offline_class x); simpl
             end;
      retried.
  - destruct (HTTP_PREFIX st) as [p|]; simpl;
      [destruct (HTTP_SESSION st) as [s|]; simpl|]; [|retried..].
    destruct (Z.leb_spec 500 (status resp)); simpl;
      repeat (progress (rewrite ?Hoff; simpl)); [retried|].
    destruct (300 <=? status resp) eqn:H300; simpl.
    + destruct (status resp =? 404); simpl;
        repeat (progress (rewrite ?H300; simpl)); retried.
    + destruct Hfail as [|(e & He & Hexc)]; [lia|].
      repeat (progress (rewrite ?H300, ?He, ?Hexc; simpl)).
      destruct (is_offline_class e); simpl; retried.
Qed.

Local Ltac exception_cases :=
  repeat (simpl;
          match goal with
          | H : ?l = _ |- context [?l] => rewrite H
          | |- context [is_Exception ?e] => destruct (is_Exception e) eqn:?
          | |- context [is_disconnect_class ?e] => destruct (is_disconnect_class e) eqn:?
          | |- context [is_offline_class ?e] => destruct (is_offline_class e) eqn:?
          | |- context [IS_READ_ONLY ?st] => destruct (IS_READ_ONLY st) eqn:?
          end);
  simpl.

Local Ltac stays_offline :=
  exception_cases;
  (split; [split; [discriminate | by intros [? ?]] | intros ? ?; discriminate]).

(** From an offline, configured state and after an identity probe that
    succeeded, the attempt brings the connection online exactly when the
    answer to the root request carries a version (a status below 500 other
    than 404 and a JSON object whose member [ha_version] is an object with a
    member [ha_version]).  When it does, [try_uuid] returns, the listener is
    scheduled once and stored pending in [FUT_SSE], the handshake handle is
    left as it was, both requests were sent, the version is logged and
    [ON_CONNECTED] is called once. *)
Theorem try_uuid_online_iff_version (uuid_resp : ClientResponse) (uuid : string)
    (root_future : exn + ClientResponse) (st : State) (p : string) (s : nat) :
  IS_ONLINE st = false →
  HTTP_PREFIX st = Some p → HTTP_SESSION st = Some s →
  status uuid_resp < 300 → text uuid_resp = inr uuid →
  let r := try_uuid (inr uuid_resp) root_future st in
  (IS_ONLINE r.2 = true ↔ is_Some (root_version root_future)) ∧
  (∀ version, root_version root_future = Some version →
     r.1 = inr tt ∧ FUT_SSE r.2 = Some (next_handle st) ∧
     futures r.2 !! next_handle st = Some Pending ∧
     FUT_UUID r.2 = FUT_UUID st ∧
     ∃ new, trace r.2 = trace st ++ new ∧
       count is_ERequest new = 2%nat ∧ count is_ESchedule new = 1%nat ∧
       count is_EOnConnected new = 1%nat ∧ In (ELogVersion version) new).
Proof.
  intros Hoff Hp Hs Hstatus Htext.
  assert ((300 <=? status uuid_resp) = false) as H300 by lia.
  assert ((500 <=? status uuid_resp) = false) as H500 by lia.
  unfold try_uuid, CONNECT_WAIT_wait, async_get_uuid, async_get_root, get,
    check_response, is_disconnect_exception, set_offline, root_version.
  run. simp_state.
  repeat (progress (rewrite ?Hp, ?Hs, ?H300, ?H500, ?Htext, ?Hoff; simpl)).
  destruct root_future as [e|resp]; simpl.
  - stays_offline.
  - destruct (500 <=? status resp) eqn:R500; simpl;
      repeat (progress (rewrite ?Hoff; simpl)); [stays_offline|].
    destruct (300 <=? status resp) eqn:R300;
      destruct (status resp =? 404) eqn:R404; simpl;
      repeat (progress (rewrite ?R404; simpl)); try solve [stays_offline].
    all: destruct (json_body resp) as [e|[| | | | |members]]; simpl;
      try solve [stays_offline].
    all: destruct (json_lookup "ha_version" members) as [[| | | | |info]|]; simpl;
      try solve [stays_offline].
    all: destruct (json_lookup "ha_version" info) as [version|]; simpl;
      [|stays_offline].
    all: destruct (IS_READ_ONLY st); simpl;
      (destruct (FUT_SSE st) as [f|]; simpl;
       [destruct (is_pending (futures st) f); simpl|]);
      (split; [split; [eauto|done]|]);
      intros ? [= <-]; rewrite lookup_insert_eq;
      repeat (split; [done|]); eexists;
      (split; [rewrite <- ?app_assoc; reflexivity|]);
      simpl; repeat split; try done; tauto.
Qed.
End attempts.

(** ** Decoding and delivery of events *)

Lemma replace_absent (old new s : string) :
  contains old s = false → replace_from old new O s = s.
Proof.
  induction s as [|c rest IH]; [done|].
  intros Habsent.
  change (String.prefix old (String c rest) || contains old rest = false) in Habsent.
  apply orb_false_iff in Habsent as [Hprefix Hrest].
  change (replace_from old new O (String c rest))
    with (if String.prefix old (String c rest)
          then new +:+ replace_from old new (Nat.pred (String.length old)) rest
          else String c (replace_from old new O rest)).
  rewrite Hprefix. f_equal. by apply IH.
Qed.

Lemma event_lookup_of_snoc (event_list : list map_events.EventClass)
    (k : map_events.EventClass) :
  map_events.event_lookup_of (event_list ++ [k]) =
  <[map_events.cls_name k := k]> (map_events.event_lookup_of event_list).
Proof. unfold map_events.event_lookup_of. by rewrite foldl_app. Qed.

(** The registry built from a list of event classes finds, under a name,
    the last class of the list that has this name, and nothing under a name
    no class has. *)
Theorem event_lookup_last_wins (event_list : list map_events.EventClass) (n : string) :
  map_events.event_lookup_of event_list !! n =
  last (filter (λ k, map_events.cls_name k = n) event_list).
Proof.
  induction event_list as [|k event_list IH] using rev_ind; [done|].
  rewrite event_lookup_of_snoc, filter_app.
  destruct (decide (map_events.cls_name k = n)) as [Heq|Hne].
  - rewrite Heq, lookup_insert_eq.
    rewrite (filter_cons_True _ k []) by done.
    by rewrite filter_nil, last_snoc.
  - rewrite lookup_insert_ne by done.
    rewrite (filter_cons_False _ k []) by done.
    by rewrite filter_nil, app_nil_r.
Qed.

Section decoding.
Import map_events connection.
Context (load_json : string → decode_failure + json).
Context (event_lookup : gmap string EventClass).

Local Abbreviation get_event := (map_events.get_event load_json event_lookup).
Local Abbreviation on_sse_event := (connection.on_sse_event load_json event_lookup).

(** A frame that lacks one of the fields [type], [topic] and [payload]
    is rejected with the [KeyError] of the first one it lacks, in this
    order, and a frame that is not an object with a [TypeError]; the
    payload is not decoded and the type is not looked up.  The handler
    reports the error and does nothing else. *)
Theorem frame_without_field_rejected (event_dict : json) (e : exn) (st : State) :
  malformed_frame event_dict = Some e →
  get_event event_dict = inl e ∧
  on_sse_event event_dict st = (inr tt, set_trace (trace st ++ [ELogException e]) st).
Proof.
  intros Hmalformed.
  assert (get_event event_dict = inl e ∧ is_Exception e = true) as [Hraise Hexc].
  { unfold map_events.get_event.
    destruct event_dict as [| | | | |members]; simpl in Hmalformed;
      try (by simplify_eq).
    unfold first_missing in Hmalformed. simpl.
    destruct (json_lookup "type" members); [|by simplify_eq/=].
    destruct (json_lookup "topic" members); [|by simplify_eq/=].
    destruct (json_lookup "payload" members); by simplify_eq/=. }
  split; [done|].
  unfold connection.on_sse_event, ignore_exception, on_sse_event__wrapped.
  run. by rewrite Hraise, Hexc.
Qed.

(** A frame with a registered type name, a topic and a payload text: the
    decoder is given the payload text with every occurrence of the quoted
    word NONE replaced by [null], whether or not the text contains it; the
    class of that name is given the topic and the decoded payload, and its
    result is the result of [get_event], but for one case: a [KeyError]
    raised by the class is reported as an unknown event of that type. *)
Theorem get_event_registered (members : list (string * json)) (t s : string)
    (topic : json) (cls : EventClass) :
  json_lookup "type" members = Some (JStr t) →
  json_lookup "topic" members = Some topic →
  json_lookup "payload" members = Some (JStr s) →
  event_lookup !! t = Some cls →
  get_event (JObj members) =
    match py_load_json load_json (replace NONE_token "null" s) with
    | inl e => inl e
    | inr payload =>
        match from_dict cls topic payload with
        | inl (KeyError _) => inl (ValueError (UnknownEvent t (JObj members)))
        | r => r
        end
    end.
Proof.
  intros Htype Htopic Hpayload Hcls.
  unfold map_events.get_event, load_payload, construct. simpl.
  rewrite Htype, Htopic, Hpayload, Hcls.
  destruct (contains NONE_token s) eqn:Hnone; [done|].
  unfold replace, NONE_token. simpl.
  by rewrite (replace_absent _ _ _ Hnone).
Qed.

(** Every frame that decodes to an event reaches the event bus exactly
    once, under the event's name and as the last thing the handler does.
    The handler returns, leaves the connection as it is, adds no name to
    the item registry and changes no item but the one of the event's
    name. *)
Theorem decoded_event_posted_once (event_dict : json) (event : HomeassistantEvent)
    (st : State) :
  get_event event_dict = inr event →
  let r := on_sse_event event_dict st in
  r.1 = inr tt ∧ connection_part r.2 = connection_part st ∧
  (∃ new, trace r.2 = trace st ++ new ∧
     count is_EPostEvent new = 1%nat ∧
     last new = Some (EPostEvent (name event) event)) ∧
  (∀ item, is_Some (Items r.2 !! item) ↔ is_Some (Items st !! item)) ∧
  (∀ item, item ≠ name event → Items r.2 !! item = Items st !! item).
Proof.
  intros Hev.
  unfold connection.on_sse_event, ignore_exception, on_sse_event__wrapped.
  unfold Items_get_item, set_value, post_event.
  run. rewrite Hev. simpl.
  destruct (kind event) as [value|payload]; simpl.
  - destruct (Items st !! name event) as [old|] eqn:Hold; simpl.
    + repeat split; try done.
      * exists [ESetValue (name event) value; EPostEvent (name event) event].
        by rewrite <- app_assoc.
      * destruct (decide (item = name event)) as [->|Hne];
          [by rewrite lookup_insert_eq, Hold | by rewrite lookup_insert_ne].
      * destruct (decide (item = name event)) as [->|Hne];
          [by rewrite lookup_insert_eq, Hold | by rewrite lookup_insert_ne].
      * intros item Hne. by rewrite lookup_insert_ne.
    + repeat split; try done. by exists [EPostEvent (name event) event].
  - repeat split; try done. by exists [EPostEvent (name event) event].
Qed.
End decoding.

(** ** The handshake handle *)

#[local] Hint Unfold handshake_set : state_props.

Section handle.
Import http_connection.
Context (load_json : string → decode_failure + json).
Context (event_lookup : gmap string map_events.EventClass).

Local Abbreviation listener := (connection.sse_event_listener load_json event_lookup).

Lemma set_offline_handle log_msg : stable handshake_set (set_offline log_msg).
Proof. unfold set_offline. stable_with fail. Qed.

Lemma check_response_handle future sent_data log_404 disconnect_on_error :
  stable handshake_set (check_response future sent_data log_404 disconnect_on_error).
Proof.
  unfold check_response, is_disconnect_exception.
  stable_with ltac:(apply set_offline_handle).
Qed.

Lemma get_handle url log_404 disconnect_on_error future :
  stable handshake_set (get url log_404 disconnect_on_error future).
Proof. unfold get. stable_with ltac:(apply check_response_handle). Qed.

Lemma sse_loop_handle frames :
  stable handshake_set
    (sse_loop load_json (connection.on_sse_event load_json event_lookup) frames).
Proof.
  induction frames as [|data frames IH]; simpl; [apply stable_ret|].
  apply stable_bind; [|intros _; exact IH].
  unfold sse_frame, connection.on_sse_event, connection.ignore_exception,
    connection.on_sse_event__wrapped, connection.Items_get_item,
    connection.set_value, connection.post_event.
  stable_with fail.
Qed.

Lemma run_stable {A} (P : State → Prop) (m : M A) st : stable P m → P st → P (m st).2.
Proof. intros H HP. specialize (H st HP). by destruct (m st) as [[e|a] st']. Qed.

(** Once the handshake handle is set, as [start_connection] leaves it,
    it stays set through the offline transition, every handshake
    attempt, every request and the listener, however each of them ends;
    and so the offline transition, which needs the handle, always
    returns.  (Of the module's functions only [stop_connection] unsets
    it.) *)
Theorem handshake_handle_kept (st : State) :
  handshake_set st →
  (∀ log_msg,
     (set_offline log_msg st).1 = inr tt ∧ handshake_set (set_offline log_msg st).2) ∧
  (∀ uuid_future root_future, handshake_set (try_uuid uuid_future root_future st).2) ∧
  (∀ url log_404 disconnect_on_error future,
     handshake_set (get url log_404 disconnect_on_error future st).2) ∧
  (∀ url log_404 json_arg data future,
     handshake_set (post url log_404 json_arg data future st).2 ∧
     handshake_set (put url log_404 json_arg data future st).2 ∧
     handshake_set (delete url log_404 json_arg data future st).2) ∧
  (∀ frames ending, handshake_set (listener frames ending st).2).
Proof.
  intros Hset. split; [|split; [|split; [|split]]].
  - intros log_msg. split.
    + apply set_offline_returns. by intros _.
    + by apply run_stable; [apply set_offline_handle|].
  - intros uuid_future root_future. apply run_stable; [|done].
    unfold try_uuid, CONNECT_WAIT_wait, async_get_uuid, async_get_root.
    stable_with ltac:(apply get_handle).
  - intros url log_404 disconnect_on_error future.
    by apply run_stable; [apply get_handle|].
  - intros url log_404 json_arg data future.
    split; [|split]; (apply run_stable; [|done]); unfold post, put, delete;
      stable_with ltac:(apply check_response_handle).
  - intros frames ending. apply run_stable; [|done].
    unfold connection.sse_event_listener, start_sse_event_listener,
      is_disconnect_exception.
    stable_with ltac:(first [apply set_offline_handle | apply sse_loop_handle]).
Qed.
End handle.

(** ** Validation in [create_item] *)

Lemma prefix_colon (c : ascii) (x y : string) :
  String.prefix ":" (String c x) = String.prefix ":" (String c y).
Proof. cbn -[ascii_dec]. destruct (ascii_dec ":"%char c); [by destruct x, y | reflexivity]. Qed.

Lemma split_plain (s : string) : contains ":" s = false → split ":" s = [s].
Proof.
  unfold split. induction s as [|c rest IH]; [done|].
  intros Hplain.
  change (String.prefix ":" (String c rest) || contains ":" rest = false) in Hplain.
  apply orb_false_iff in Hplain as [Hprefix Hrest].
  change (split_from ":" 0 (String c rest))
    with (if String.prefix ":" (String c rest)
          then EmptyString :: split_from ":" 0 rest
          else match split_from ":" 0 rest with
               | piece :: pieces => String c piece :: pieces
               | [] => [String c EmptyString]
               end).
  by rewrite Hprefix, IH.
Qed.

Lemma split_at_colon (a rest : string) :
  contains ":" a = false →
  split ":" (a +:+ ":" +:+ rest) = a :: split ":" rest.
Proof.
  unfold split. induction a as [|c a IH]; [intros _; by destruct rest|].
  intros Hplain.
  change (String.prefix ":" (String c a) || contains ":" a = false) in Hplain.
  apply orb_false_iff in Hplain as [Hprefix Hrest].
  change (split_from ":" 0 (String c a +:+ ":" +:+ rest))
    with (if String.prefix ":" (String c (a +:+ ":" +:+ rest))
          then EmptyString :: split_from ":" 0 (a +:+ ":" +:+ rest)
          else match split_from ":" 0 (a +:+ ":" +:+ rest) with
               | piece :: pieces => String c piece :: pieces
               | [] => [String c EmptyString]
               end).
  by rewrite (prefix_colon c _ a), Hprefix, IH.
Qed.

Lemma contains_colon (a rest : string) : contains ":" (a +:+ ":" +:+ rest) = true.
Proof.
  induction a as [|c a IH]; [by destruct rest|].
  change (String.prefix ":" (String c (a +:+ ":" +:+ rest))
          || contains ":" (a +:+ ":" +:+ rest) = true).
  rewrite IH. apply orb_true_r.
Qed.

Lemma split_nonempty (s : string) : split ":" s ≠ [].
Proof.
  unfold split. destruct s as [|c rest]; [done|].
  change (split_from ":" 0 (String c rest))
    with (if String.prefix ":" (String c rest)
          then EmptyString :: split_from ":" 0 rest
          else match split_from ":" 0 rest with
               | piece :: pieces => String c piece :: pieces
               | [] => [String c EmptyString]
               end).
  destruct (String.prefix _ _); [done|]. by destruct (split_from _ _ _).
Qed.

Lemma first_failure_fails (statements : list func_sync.checked)
    (e : func_sync.create_item_exn) :
  In (inl e) statements → ∃ e', func_sync.first_failure statements = inl e'.
Proof.
  induction statements as [|[e1|[]] statements IH]; simpl; [done | by eauto |].
  intros [Hhead|Htail]; [discriminate | by apply IH].
Qed.

Section create_item.
Import func_sync.
Context (ITEM_TYPES ITEM_DIMENSIONS GROUP_FUNCTIONS : list string).

Local Abbreviation create_item :=
  (create_item__wrapped ITEM_TYPES ITEM_DIMENSIONS GROUP_FUNCTIONS).

(** How [create_item] checks the item type, before anything else and
    whatever the other arguments are.  A type without a colon must be an
    item type.  Of a type with one colon the part after the colon is
    checked first, against the dimensions, and then the part before it,
    against the item types.  A type with more colons is not rejected by an
    assertion: unpacking the pieces raises.  None of these reaches the
    call. *)
Theorem create_item_item_type (t u : string)
    (name label category tags groups group_type group_function
     group_function_params : json) (result : exn + json) :
  contains ":" t = false → contains ":" u = false →
  let run item_type :=
    create_item item_type name label category tags groups group_type group_function
      group_function_params result in
  (t ∉ ITEM_TYPES → run t = (inl (InvalidType t), [])) ∧
  (u ∉ ITEM_DIMENSIONS → run (t +:+ ":" +:+ u) = (inl (InvalidUnit u), [])) ∧
  (u ∈ ITEM_DIMENSIONS → t ∉ ITEM_TYPES →
     run (t +:+ ":" +:+ u) = (inl (InvalidType t), [])) ∧
  (∀ more,
     run (t +:+ ":" +:+ u +:+ ":" +:+ more) =
       (inl (UnpackError (2 + length (split ":" more))), [])).
Proof.
  intros Ht Hu run. unfold run, create_item__wrapped, create_item_validation.
  split; [|split; [|split]].
  - intros Hno. rewrite Ht. simpl. by rewrite bool_decide_eq_false_2.
  - intros Hno. rewrite contains_colon, (split_at_colon _ _ Ht), (split_plain _ Hu).
    simpl. by rewrite bool_decide_eq_false_2.
  - intros Hunit Hno.
    rewrite contains_colon, (split_at_colon _ _ Ht), (split_plain _ Hu).
    simpl. by rewrite (bool_decide_eq_true_2 _ Hunit), bool_decide_eq_false_2.
  - intros more.
    rewrite contains_colon, (split_at_colon _ _ Ht), (split_at_colon _ _ Hu).
    pose proof (split_nonempty more) as Hne.
    by destruct (split ":" more) as [|piece pieces].
Qed.

(** [create_item] never looks at what the tags, the groups and the
    parameters of the group function contain: the two [map(validate, ...)]
    of the tags and groups and the one of the parameters are never
    consumed.  Lists of any values, strings or not, give the outcome that
    any other lists give, as long as the parameters are empty in both or
    in neither. *)
Theorem create_item_elements_unchecked (item_type : string)
    (name label category group_type group_function : json)
    (tags tags' groups groups' params params' : list json) (result : exn + json) :
  (params = [] ↔ params' = []) →
  (create_item item_type name label category (JList tags) (JList groups)
     group_type group_function (JList params) result).1 =
  (create_item item_type name label category (JList tags') (JList groups')
     group_type group_function (JList params') result).1.
Proof.
  intros Hempty.
  assert (truthy (JList params) = truthy (JList params')) as Htruthy.
  { simpl. f_equal. by apply bool_decide_ext. }
  unfold create_item__wrapped, create_item_validation. rewrite Htruthy.
  simpl.
  repeat match goal with
         | |- context [first_failure (?c :: _)] => destruct c as [?|[]]; simpl
         | |- context [py_assert ?b ?e] => destruct b; simpl
         | |- context [if ?b then _ else _] => destruct b; simpl
         | |- context [match ?x with _ => _ end] => destruct x; simpl
         end; done.
Qed.

(** Group arguments need the item type [Group].  When [create_item]
    reaches its call with a group type, a group function or parameters
    given, the item type is exactly [Group], which then is one of the
    item types, and the group function is empty or one of the group
    functions.  An item type with a dimension can therefore not be given
    group arguments. *)
Theorem create_item_group_arguments (item_type : string)
    (name label category tags groups group_type group_function
     group_function_params : json) (result : exn + json) :
  truthy group_type || truthy group_function || truthy group_function_params = true →
  (create_item item_type name label category tags groups group_type group_function
     group_function_params result).2 ≠ [] →
  item_type = "Group" ∧ "Group" ∈ ITEM_TYPES ∧
  (group_function = JStr EmptyString ∨
   ∃ f, group_function = JStr f ∧ f ∈ GROUP_FUNCTIONS).
Proof.
  intros Hgroup. unfold create_item__wrapped, create_item_validation.
  rewrite Hgroup.
  destruct (String.eqb_spec item_type "Group") as [->|Hne].
  - simpl.
    destruct (decide ("Group" ∈ ITEM_TYPES)) as [Hin|Hout];
      [rewrite (bool_decide_eq_true_2 _ Hin) | by rewrite (bool_decide_eq_false_2 _ Hout)].
    simpl.
    destruct (is_str name); [|done]. destruct (is_str label); [|done].
    destruct (is_str category); [|done]. simpl.
    unfold map_validate.
    destruct (is_iterable tags); [|done]. destruct (is_iterable groups); [|done].
    destruct (is_str group_type); [|done]. simpl.
    destruct group_function as [| | |f| |]; try done. simpl.
    destruct (is_iterable group_function_params); [|done]. simpl.
    destruct (String.eqb_spec f EmptyString) as [->|Hf]; simpl.
    + intros _. split; [done|]. split; [done | by left].
    + destruct (decide (f ∈ GROUP_FUNCTIONS)) as [Hfin|Hfout];
        [rewrite (bool_decide_eq_true_2 _ Hfin) | by rewrite (bool_decide_eq_false_2 _ Hfout)].
      intros _. split; [done|]. split; [done|]. right. by exists f.
  - lazymatch goal with
    | |- (match first_failure ?l with _ => _ end).2 ≠ [] → _ =>
        destruct (first_failure_fails l (NotAGroup item_type)) as [e' ->]
    end; [|done].
    simpl. do 9 right. by left.
Qed.
End create_item.

(** ** Sample instances of the further properties *)

Section further_witnesses.
Import http_connection Samples.

Local Ltac sample_classes :=
  intros n cls topic payload Hcls;
  change ((<["ItemStateEvent" := ItemStateEvent]> ∅ : gmap string map_events.EventClass)
            !! n = Some cls) in Hcls;
  apply lookup_insert_Some in Hcls as [[_ <-]|[_ Hcls]];
  [simpl; destruct topic; discriminate
  |rewrite lookup_empty in Hcls; discriminate].

Lemma get_one_request_or_none_witness :
  get_passes "items" st_online = true ∧
  ∃ new, trace (get "items" true false (inr resp_uuid) st_online).2 =
           trace st_online ++ new ∧
         count is_ERequest new = 1%nat.
Proof.
  split; [reflexivity|].
  exact (proj1 (get_one_request_or_none "items" true false (inr resp_uuid) st_online)
           eq_refl).
Defined.

Lemma check_response_exception_witness :
  is_disconnect_class ClientOSError = true ∧
  handshake_tracked st_online ∧
  (check_response (inl ClientOSError) None true false st_online).1 =
    inl HomeassistantDisconnectedError ∧
  IS_ONLINE (check_response (inl ClientOSError) None true false st_online).2 = false.
Proof.
  assert (Htracked : handshake_tracked st_online) by (intros _; by eexists).
  destruct (proj2 (proj2 (check_response_exception ClientOSError None true false
                            st_online))
              eq_refl Htracked) as [Hrun Hoff].
  split; [reflexivity|]. split; [exact Htracked|].
  split; [by rewrite Hrun | exact Hoff].
Defined.

Lemma dispatch_never_stops_the_stream_witness :
  raises_only_exceptions event_lookup ∧
  (sse_loop load_json (connection.on_sse_event load_json event_lookup)
     ["lamp frame"; "<html>"; "unknown frame"] st_online).1 = inr tt.
Proof.
  assert (Hclasses : raises_only_exceptions event_lookup).
  { sample_classes. }
  split; [exact Hclasses|].
  exact (proj1 (dispatch_never_stops_the_stream load_json event_lookup Hclasses
                  ["lamp frame"; "<html>"; "unknown frame"] [] st_online)).
Defined.

Lemma start_connection_restart_witness :
  host (mkConnection "localhost" 8123 EmptyString EmptyString) ≠ EmptyString ∧
  HTTP_SESSION (start_connection (mkConnection "localhost" 8123 EmptyString EmptyString)
                  (inr EmptyString) (inr false) st_boot).2 = Some 0%nat ∧
  FUT_UUID (start_connection (mkConnection "localhost" 8123 EmptyString EmptyString)
              (inr EmptyString) (inr false) st_boot).2 = Some 1%nat.
Proof.
  assert (Hhost : host (mkConnection "localhost" 8123 EmptyString EmptyString)
                  ≠ EmptyString) by discriminate.
  destruct (proj2 (proj2 (start_connection_restart
                            (mkConnection "localhost" 8123 EmptyString EmptyString)
                            (inr EmptyString) (inr false) st_boot))
              EmptyString false eq_refl eq_refl Hhost)
    as (_ & _ & Hsession & Hfut & _).
  split; [exact Hhost|]. split; [exact Hsession | exact Hfut].
Defined.

Lemma listener_clean_end_witness :
  raises_only_exceptions event_lookup ∧
  connection_part
    (connection.sse_event_listener load_json event_lookup ["lamp frame"] None
       st_online).2 = connection_part st_online.
Proof.
  assert (Hclasses : raises_only_exceptions event_lookup).
  { sample_classes. }
  split; [exact Hclasses|].
  exact (proj1 (proj2 (listener_clean_end load_json event_lookup Hclasses
                         ["lamp frame"] None st_online (or_introl eq_refl)))).
Defined.

Lemma listener_error_end_witness :
  raises_only_exceptions event_lookup ∧
  is_Exception ClientPayloadError = true ∧
  IS_ONLINE st_online = true ∧
  IS_ONLINE
    (connection.sse_event_listener load_json event_lookup ["lamp frame"]
       (Some ClientPayloadError) st_online).2 = false ∧
  (connection.sse_event_listener load_json event_lookup ["lamp frame"]
     (Some ClientPayloadError) st_online).1 = inr tt.
Proof.
  assert (Hclasses : raises_only_exceptions event_lookup).
  { sample_classes. }
  destruct (listener_error_end load_json event_lookup Hclasses
              ["lamp frame"] ClientPayloadError st_online eq_refl eq_refl)
    as (Hoff & _ & _ & Hset & _).
  split; [exact Hclasses|]. split; [reflexivity|]. split; [reflexivity|].
  split; [exact Hoff|].
  apply Hset. by eexists.
Defined.

Lemma try_uuid_failed_probe_retries_witness :
  IS_ONLINE st_started = false ∧
  uuid_probe_fails (inr resp_unavailable) ∧
  FUT_UUID (try_uuid (inr resp_unavailable) (inr resp_root_nested) st_started).2 =
    Some 2%nat.
Proof.
  assert (Hfail : uuid_probe_fails (inr resp_unavailable)) by (left; simpl; lia).
  split; [reflexivity|]. split; [exact Hfail|].
  exact (proj1 (proj2 (proj2 (proj2 (try_uuid_failed_probe_retries
                                       (inr resp_unavailable) (inr resp_root_nested)
                                       st_started eq_refl Hfail))))).
Defined.

Lemma try_uuid_online_iff_version_witness :
  IS_ONLINE st_started = false ∧
  HTTP_PREFIX st_started = Some prefix ∧ HTTP_SESSION st_started = Some 0%nat ∧
  status resp_uuid < 300 ∧
  root_version (inr resp_root_nested) = Some (JStr "2021.1") ∧
  IS_ONLINE (try_uuid (inr resp_uuid) (inr resp_root_nested) st_started).2 = true.
Proof.
  assert (Hlt : status resp_uuid < 300) by (simpl; lia).
  split; [reflexivity|]. split; [reflexivity|]. split; [reflexivity|].
  split; [exact Hlt|]. split; [reflexivity|].
  apply (proj1 (try_uuid_online_iff_version resp_uuid _ (inr resp_root_nested)
                  st_started prefix 0%nat eq_refl eq_refl eq_refl Hlt eq_refl)).
  by eexists.
Defined.

Lemma frame_without_field_rejected_witness :
  malformed_frame (JObj [("type", JStr "X")]) = Some (KeyError "topic") ∧
  map_events.get_event load_json event_lookup (JObj [("type", JStr "X")]) =
    inl (KeyError "topic").
Proof.
  split; [reflexivity|].
  exact (proj1 (frame_without_field_rejected load_json event_lookup
                  (JObj [("type", JStr "X")]) (KeyError "topic") st_online eq_refl)).
Defined.

Lemma get_event_registered_witness :
  event_lookup !! "ItemStateEvent" = Some ItemStateEvent ∧
  map_events.get_event load_json event_lookup lamp_frame = inr lamp_event.
Proof.
  split; [reflexivity|].
  exact (eq_trans
           (get_event_registered load_json event_lookup
              [("type", JStr "ItemStateEvent"); ("topic", JStr "Lamp");
               ("payload", JStr (quoted "ON"))]
              "ItemStateEvent" (quoted "ON") (JStr "Lamp") ItemStateEvent
              eq_refl eq_refl eq_refl eq_refl)
           eq_refl).
Defined.

Lemma decoded_event_posted_once_witness :
  map_events.get_event load_json event_lookup lamp_frame = inr lamp_event ∧
  (connection.on_sse_event load_json event_lookup lamp_frame st_online).1 = inr tt.
Proof.
  split; [reflexivity|].
  exact (proj1 (decoded_event_posted_once load_json event_lookup lamp_frame lamp_event
                  st_online eq_refl)).
Defined.
Lemma handshake_handle_kept_witness :
  handshake_set st_online ∧
  (set_offline "Status 503" st_online).1 = inr tt ∧
  handshake_set (set_offline "Status 503" st_online).2.
Proof.
  assert (Hset : handshake_set st_online) by (by eexists).
  split; [exact Hset|].
  exact (proj1 (handshake_handle_kept load_json event_lookup st_online Hset)
           "Status 503").
Defined.

Lemma create_item_item_type_witness :
  contains ":" "Number" = false ∧ contains ":" "Length" = false ∧
  func_sync.create_item__wrapped item_types item_dimensions group_functions
    "Number:Length:m" (JStr "Width") (JStr EmptyString) (JStr EmptyString)
    (JList []) (JList []) (JStr EmptyString) (JStr EmptyString) (JList [])
    (inr (JBool true)) =
  (inl (func_sync.UnpackError 3), []).
Proof.
  split; [reflexivity|]. split; [reflexivity|].
  exact (proj2 (proj2 (proj2
           (create_item_item_type item_types item_dimensions group_functions
              "Number" "Length" (JStr "Width") (JStr EmptyString) (JStr EmptyString)
              (JList []) (JList []) (JStr EmptyString) (JStr EmptyString) (JList [])
              (inr (JBool true)) eq_refl eq_refl)))
           "m").
Defined.

Lemma create_item_elements_unchecked_witness :
  (([] : list json) = [] ↔ ([] : list json) = []) ∧
  (func_sync.create_item__wrapped item_types item_dimensions group_functions
     "Switch" (JStr "Lamp") (JStr EmptyString) (JStr EmptyString)
     (JList [JNum 1; JNull]) (JList [JObj []]) (JStr EmptyString) (JStr EmptyString)
     (JList []) (inr (JBool true))).1 =
  (func_sync.create_item__wrapped item_types item_dimensions group_functions
     "Switch" (JStr "Lamp") (JStr EmptyString) (JStr EmptyString)
     (JList [JStr "light"]) (JList [JStr "Kitchen"]) (JStr EmptyString)
     (JStr EmptyString) (JList []) (inr (JBool true))).1.
Proof.
  assert (Hempty : ([] : list json) = [] ↔ ([] : list json) = [])
    by (split; intros _; reflexivity).
  split; [exact Hempty|].
  exact (create_item_elements_unchecked item_types item_dimensions group_functions
           "Switch" (JStr "Lamp") (JStr EmptyString) (JStr EmptyString)
           (JStr EmptyString) (JStr EmptyString)
           [JNum 1; JNull] [JStr "light"] [JObj []] [JStr "Kitchen"] [] []
           (inr (JBool true)) Hempty).
Defined.

Lemma create_item_group_arguments_witness :
  truthy (JStr EmptyString) || truthy (JStr "AND") || truthy (JList []) = true ∧
  (func_sync.create_item__wrapped item_types item_dimensions group_functions
     "Group" (JStr "Lights") (JStr EmptyString) (JStr EmptyString)
     (JList []) (JList []) (JStr EmptyString) (JStr "AND") (JList [])
     (inr (JBool true))).2 ≠ [] ∧
  "Group" ∈ item_types.
Proof.
  assert (Hcall :
    (func_sync.create_item__wrapped item_types item_dimensions group_functions
       "Group" (JStr "Lights") (JStr EmptyString) (JStr EmptyString)
       (JList []) (JList []) (JStr EmptyString) (JStr "AND") (JList [])
       (inr (JBool true))).2 ≠ []) by (vm_compute; discriminate).
  split; [reflexivity|]. split; [exact Hcall|].
  exact (proj1 (proj2
           (create_item_group_arguments item_types item_dimensions group_functions
              "Group" (JStr "Lights") (JStr EmptyString) (JStr EmptyString)
              (JList []) (JList []) (JStr EmptyString) (JStr "AND") (JList [])
              (inr (JBool true)) eq_refl Hcall))).
Defined.
End further_witnesses.
